(** * Opal-Tools: the sample-size calculator

    A shallow embedding of [Sample-Size-Calculator-OCP/sample_size_calc.ts]
    and of the tool handler in
    [Sample-Size-Calculator-OCP/src/functions/OpalToolFunction.ts].

    ECMAScript numbers are modelled as extended reals: [NaN], the two
    infinities, and finite values.  The special values follow IEEE-754
    (an invalid operation gives [NaN], a non-zero value divided by zero an
    infinity, comparisons with [NaN] are false).  Finite values carry exact
    real arithmetic: rounding error, overflow and underflow of finite
    results are not represented.  Nor is the sign of zero: a zero divisor
    is taken to be positive.  In [sample_size_calc.ts] every zero divisor is
    one ([Math.abs] of a product, its square, or ten to the minus
    infinity); in the tool handler a negative variant count would flip the
    sign of an infinite duration, and no statement below depends on that
    sign. *)

From Stdlib Require Import Reals Lra Lia ZArith Bool String Ascii List.
From Stdlib Require Import Zfloor.

Open Scope R_scope.

(** ** Numbers *)

Inductive number : Type :=
  | NaN
  | PInf
  | NInf
  | Fin (r : R).

Definition Rltb (a b : R) : bool := if Rlt_dec a b then true else false.
Definition Reqb (a b : R) : bool := if Req_dec_T a b then true else false.

Definition signed_inf (positive : bool) : number :=
  if positive then PInf else NInf.

(** An infinity of the given sign times the finite value [r]. *)
Definition inf_times (positive : bool) (r : R) : number :=
  if Reqb r 0 then NaN
  else if Rltb 0 r then signed_inf positive
  else signed_inf (negb positive).

Definition neg (a : number) : number :=
  match a with
  | NaN => NaN
  | PInf => NInf
  | NInf => PInf
  | Fin r => Fin (- r)
  end.

Definition add (a b : number) : number :=
  match a, b with
  | NaN, _ | _, NaN => NaN
  | PInf, NInf | NInf, PInf => NaN
  | PInf, _ | _, PInf => PInf
  | NInf, _ | _, NInf => NInf
  | Fin x, Fin y => Fin (x + y)
  end.

Definition sub (a b : number) : number := add a (neg b).

Definition mul (a b : number) : number :=
  match a, b with
  | NaN, _ | _, NaN => NaN
  | PInf, PInf | NInf, NInf => PInf
  | PInf, NInf | NInf, PInf => NInf
  | PInf, Fin r | Fin r, PInf => inf_times true r
  | NInf, Fin r | Fin r, NInf => inf_times false r
  | Fin x, Fin y => Fin (x * y)
  end.

Definition div (a b : number) : number :=
  match a, b with
  | NaN, _ | _, NaN => NaN
  | PInf, PInf | PInf, NInf | NInf, PInf | NInf, NInf => NaN
  | PInf, Fin r => if Rltb r 0 then NInf else PInf
  | NInf, Fin r => if Rltb r 0 then PInf else NInf
  | Fin _, PInf | Fin _, NInf => Fin 0
  | Fin x, Fin y =>
      if Reqb y 0 then
        (if Reqb x 0 then NaN else if Rltb 0 x then PInf else NInf)
      else Fin (x / y)
  end.

(** [a < b] and [a >= b] of the language: false as soon as one side is NaN. *)
Definition lt (a b : number) : bool :=
  match a, b with
  | NaN, _ | _, NaN => false
  | PInf, _ => false
  | _, NInf => false
  | NInf, _ => true
  | Fin _, PInf => true
  | Fin x, Fin y => Rltb x y
  end.

Definition ge (a b : number) : bool :=
  match a, b with
  | NaN, _ | _, NaN => false
  | _, _ => negb (lt a b)
  end.

Definition gt (a b : number) : bool := lt b a.

Definition isNaN (a : number) : bool :=
  match a with NaN => true | _ => false end.

Definition isFinite (a : number) : bool :=
  match a with Fin _ => true | _ => false end.

(** [parseFloat] applied to a number prints it and reads it back, and the
    printed forms of NaN and of the infinities are read back as such. *)
Definition parseFloat (a : number) : number := a.

Module Math.

Definition abs (a : number) : number :=
  match a with
  | NaN => NaN
  | PInf | NInf => PInf
  | Fin r => Fin (Rabs r)
  end.

Definition sqrt (a : number) : number :=
  match a with
  | NaN | NInf => NaN
  | PInf => PInf
  | Fin r => if Rltb r 0 then NaN else Fin (R_sqrt.sqrt r)
  end.

Definition log (a : number) : number :=
  match a with
  | NaN | NInf => NaN
  | PInf => PInf
  | Fin r =>
      if Rltb r 0 then NaN
      else if Reqb r 0 then NInf
      else Fin (ln r)
  end.

Definition LN10 : number := Fin (ln 10).

(** [Math.pow(10, y)], the only use of [Math.pow] in the program. *)
Definition pow10 (y : number) : number :=
  match y with
  | NaN => NaN
  | PInf => PInf
  | NInf => Fin 0
  | Fin r => Fin (Rpower 10 r)
  end.

Definition floor (a : number) : number :=
  match a with
  | Fin r => Fin (IZR (Zfloor r))
  | _ => a
  end.

(** Nearest integer, ties towards plus infinity. *)
Definition round (a : number) : number :=
  match a with
  | Fin r => Fin (IZR (Zfloor (r + / 2)))
  | _ => a
  end.

(** [Math.max] of two numbers, used to state properties. *)
Definition max (a b : number) : number :=
  match a, b with
  | NaN, _ | _, NaN => NaN
  | _, _ => if ge a b then a else b
  end.

End Math.

(** ** sample_size_calc.ts *)

Module DEFAULT_VALUES.
Definition conversion : number := Fin (3 / 100).
Definition effect : number := Fin (2 / 10).
Definition significance : number := Fin (95 / 100).
End DEFAULT_VALUES.

Definition isNumeric (n : number) : bool :=
  negb (isNaN (parseFloat n)) && isFinite n.

Definition roundToSigFigs (n : number) : number :=
  let s := Math.round n in
  let t :=
    Math.pow10
      (sub (sub (Fin 2) (Math.floor (div (Math.log s) Math.LN10))) (Fin 1)) in
  let a := div (Math.round (mul s t)) t in
  Math.round a.

(** The intermediate values of [sampleSizeEstimate], in source order. *)
Record estimates : Type := {
  absoluteMDE : number;
  theta : number;
  variance1 : number;
  variance2 : number;
  sampleEstimate1 : number;
  sampleEstimate2 : number;
  sampleEstimate : number
}.

Definition candidate (confidence variance theta : number) : number :=
  div
    (mul (mul (mul (Fin 2) confidence) variance)
       (Math.log (add (Fin 1) (div (Math.sqrt variance) theta))))
    (mul theta theta).

Definition intermediates
    (conversionDecimal effectDecimal significanceDecimal : number)
    : estimates :=
  let significance := sub (Fin 1) significanceDecimal in
  let absoluteMDE := mul conversionDecimal effectDecimal in
  let c1 := conversionDecimal in
  let c2 := sub conversionDecimal absoluteMDE in
  let c3 := add conversionDecimal absoluteMDE in
  let theta := Math.abs absoluteMDE in
  let variance1 :=
    add (mul c1 (sub (Fin 1) c1)) (mul c2 (sub (Fin 1) c2)) in
  let variance2 :=
    add (mul c1 (sub (Fin 1) c1)) (mul c3 (sub (Fin 1) c3)) in
  let sampleEstimate1 :=
    candidate (sub (Fin 1) significance) variance1 theta in
  let sampleEstimate2 :=
    candidate (sub (Fin 1) significance) variance2 theta in
  let sampleEstimate :=
    if ge (Math.abs sampleEstimate1) (Math.abs sampleEstimate2)
    then sampleEstimate1 else sampleEstimate2 in
  {| absoluteMDE := absoluteMDE;
     theta := theta;
     variance1 := variance1;
     variance2 := variance2;
     sampleEstimate1 := sampleEstimate1;
     sampleEstimate2 := sampleEstimate2;
     sampleEstimate := sampleEstimate |}.

(** The result is [None] for the source's [null]. *)
Definition sampleSizeEstimate
    (conversionDecimal effectDecimal significanceDecimal : number)
    : option number :=
  let sampleEstimate :=
    sampleEstimate
      (intermediates conversionDecimal effectDecimal significanceDecimal) in
  if negb (isNumeric sampleEstimate)
     || negb (isFinite sampleEstimate)
     || lt sampleEstimate (Fin 0)
  then None
  else Some (roundToSigFigs sampleEstimate).

(** A call site: an argument left out ([None]) takes its default. *)
Definition sampleSizeEstimate_call (c e s : option number) : option number :=
  sampleSizeEstimate
    (match c with Some v => v | None => DEFAULT_VALUES.conversion end)
    (match e with Some v => v | None => DEFAULT_VALUES.effect end)
    (match s with Some v => v | None => DEFAULT_VALUES.significance end).

(** [a <= b] of the language: false as soon as one side is NaN. *)
Definition le (a b : number) : bool :=
  match a, b with
  | NaN, _ | _, NaN => false
  | _, _ => negb (lt b a)
  end.

(** The keys of [DEFAULT_VALUES], the type of [validateParameter]'s second
    argument. *)
Inductive parameter : Type :=
  | conversion
  | effect
  | significance.

(** [Number(DEFAULT_VALUES[parameter])] *)
Definition defaultValue (p : parameter) : number :=
  match p with
  | conversion => DEFAULT_VALUES.conversion
  | effect => DEFAULT_VALUES.effect
  | significance => DEFAULT_VALUES.significance
  end.

Section ValidateParameter.

(** [formatNumber] rewrites a value through its printed decimal form, which
    is outside this model of numbers; it is a parameter here.  It is only
    called on values strictly between 0 and 1. *)
Variable formatNumber : number -> number.

(** The second argument ranges over the keys of [DEFAULT_VALUES], so the
    test that throws on another key never fires. *)
Definition validateParameter (value : number) (p : parameter) : number :=
  let i := defaultValue p in
  if negb (isNaN value) then
    match p with
    | conversion | effect =>
        if le value (Fin 0) then i
        else if gt value (Fin 0) && lt value (Fin 1) then formatNumber value
        else value
    | significance =>
        if lt value (Fin 80) || gt value (Fin 99) then i else value
    end
  else i.

End ValidateParameter.

(** ** Rounding on integers

    What [roundToSigFigs] computes once its argument has been rounded to
    the integer [s >= 1]: [ilog10 s] is [floor (log10 s)], and
    [sigFigs digitsToKeep s] keeps the leading [digitsToKeep] decimal digits
    of [s], rounding half up.  These are executable and are related to the
    real-valued program by [roundToSigFigs_Fin]. *)

Fixpoint ilog10_fuel (fuel : nat) (s : Z) : Z :=
  match fuel with
  | O => 0%Z
  | S f => if (s <? 10)%Z then 0%Z else (1 + ilog10_fuel f (s / 10))%Z
  end.

Definition ilog10 (s : Z) : Z :=
  ilog10_fuel (S (Z.to_nat (Z.log2 s))) s.

(** [s / p] rounded to the nearest integer, ties up. *)
Definition roundHalfUpDiv (s p : Z) : Z := ((2 * s + p) / (2 * p))%Z.

Definition sigFigs (digitsToKeep s : Z) : Z :=
  let d := ilog10 s in
  if (d <? digitsToKeep)%Z then s
  else
    let p := (10 ^ (d + 1 - digitsToKeep))%Z in
    (roundHalfUpDiv s p * p)%Z.

(** The real-valued quantities behind the two candidates: the variance
    [c1 (1 - c1) + (c1 + m) (1 - (c1 + m))] for a shift [m] of the baseline,
    and the estimate for a confidence factor, a variance and a positive
    [theta]. *)
Definition shiftedVariance (c m : R) : R :=
  c * (1 - c) + (c + m) * (1 - (c + m)).

Definition estimateValue (confidence v th : R) : R :=
  2 * confidence * v * ln (1 + sqrt v / th) / (th * th).

(** ** src/functions/OpalToolFunction.ts *)

Module OpalToolFunction.

Record SampleSizeCalculatorParameters : Type := {
  baselineRate : option number;
  mde : option number;
  significance : option number;
  variants : option number;
  visitors : option number;
  frequency : option string
}.

(** [x || d] on an optional number: undefined, zero and NaN are falsy. *)
Definition num_or (x : option number) (d : number) : number :=
  match x with
  | None => d
  | Some NaN => d
  | Some (Fin r) => if Reqb r 0 then d else Fin r
  | Some v => v
  end.

(** [x || d] on an optional string: undefined and the empty string are
    falsy. *)
Definition str_or (x : option string) (d : string) : string :=
  match x with
  | None => d
  | Some EmptyString => d
  | Some s => s
  end.

Definition lower_ascii (a : ascii) : ascii :=
  let n := nat_of_ascii a in
  if (65 <=? n)%nat && (n <=? 90)%nat then ascii_of_nat (n + 32) else a.

Definition upper_ascii (a : ascii) : ascii :=
  let n := nat_of_ascii a in
  if (97 <=? n)%nat && (n <=? 122)%nat then ascii_of_nat (n - 32) else a.

(** Case mapping of the ASCII letters; other characters are kept. *)
Fixpoint toLowerCase (s : string) : string :=
  match s with
  | EmptyString => EmptyString
  | String a rest => String (lower_ascii a) (toLowerCase rest)
  end.

(** [s.charAt(0).toUpperCase() + s.slice(1)] *)
Definition capitalize (s : string) : string :=
  match s with
  | EmptyString => EmptyString
  | String a rest => String (upper_ascii a) rest
  end.

Record processedModels : Type := {
  effect : number;
  pm_significance : number;
  conversion : number
}.

(** The class's own [isNumeric]; the [typeof] test holds of every number. *)
Definition isNumeric (value : number) : bool :=
  negb (isNaN value) && isFinite value.

Definition roundToSigFigs (n : number) : number :=
  let s := Math.round n in
  let t :=
    Math.pow10
      (sub (sub (Fin 2) (Math.floor (div (Math.log s) Math.LN10))) (Fin 1)) in
  let a := div (Math.round (mul s t)) t in
  Math.round a.

Definition calculateSampleSizeInternal (pm : processedModels)
    : option number :=
  let relativeMDE := effect pm in
  let significance := sub (Fin 1) (div (pm_significance pm) (Fin 100)) in
  let baselineConversionRate := conversion pm in
  let absoluteMDE := mul baselineConversionRate relativeMDE in
  let c1 := baselineConversionRate in
  let c2 := sub baselineConversionRate absoluteMDE in
  let c3 := add baselineConversionRate absoluteMDE in
  let theta := Math.abs absoluteMDE in
  let variance1 :=
    add (mul c1 (sub (Fin 1) c1)) (mul c2 (sub (Fin 1) c2)) in
  let variance2 :=
    add (mul c1 (sub (Fin 1) c1)) (mul c3 (sub (Fin 1) c3)) in
  let sampleEstimate1 :=
    candidate (sub (Fin 1) significance) variance1 theta in
  let sampleEstimate2 :=
    candidate (sub (Fin 1) significance) variance2 theta in
  let sampleEstimate :=
    if ge (Math.abs sampleEstimate1) (Math.abs sampleEstimate2)
    then sampleEstimate1 else sampleEstimate2 in
  if negb (isNumeric sampleEstimate)
     || negb (isFinite sampleEstimate)
     || lt sampleEstimate (Fin 0)
  then None
  else Some (roundToSigFigs sampleEstimate).

Record ResultData : Type := {
  sampleSizePerVariant : number;
  totalSampleSize : number;
  daysToRun : number;
  weeksToRun : number;
  monthsToRun : number;
  variantMultiplier : number;
  visitorsCount : number;
  visitorsFrequency : string;
  visitorsCountDays : number;
  r_baselineRate : number;
  expectedLift : number;
  r_significance : number;
  r_variants : number;
  formula : string
}.

(** [Success d] is [{ success: true, data: d }] and [Failure m] is
    [{ success: false, message: m }]. *)
Inductive ToolResult : Type :=
  | Success (data : ResultData)
  | Failure (message : string).

(** [appVersion] stands for the string [getAppVersion] reads from the
    manifest.  On parameters of the declared types no operation of the
    [try] block throws, so the [catch] branch is left out; logging is not
    represented. *)
Definition calculateSampleSize (appVersion : string)
    (params : SampleSizeCalculatorParameters) : ToolResult :=
  let baselineRate := num_or (baselineRate params) (Fin (1 / 10)) in
  let mde := num_or (mde params) (Fin (5 / 100)) in
  let significance := num_or (significance params) (Fin 95) in
  let variants := num_or (variants params) (Fin 2) in
  let visitorsCount := num_or (visitors params) (Fin 10000) in
  let visitorsFrequency := str_or (frequency params) "monthly" in
  let processedModels :=
    {| effect := mde;
       pm_significance := significance;
       conversion := baselineRate |} in
  match calculateSampleSizeInternal processedModels with
  | None =>
      Failure "Invalid calculation parameters - unable to compute sample size"
  | Some sampleSize =>
      let variantMultiplier :=
        if gt variants (Fin 2) then variants else Fin 1 in
      let adjustedSampleSize := mul sampleSize variantMultiplier in
      let totalSampleSize := mul adjustedSampleSize variants in
      let visitorsCountDays :=
        if String.eqb (toLowerCase visitorsFrequency) "monthly"
        then div visitorsCount (Fin 30)
        else if String.eqb (toLowerCase visitorsFrequency) "weekly"
        then div visitorsCount (Fin 7)
        else if String.eqb (toLowerCase visitorsFrequency) "daily"
        then visitorsCount
        else Fin 0 in
      let visitorsCountDaysPerVariant := div visitorsCountDays variants in
      let daysToRun := div adjustedSampleSize visitorsCountDaysPerVariant in
      let weeksToRun := div daysToRun (Fin 7) in
      let monthsToRun := div daysToRun (Fin 30) in
      Success
        {| sampleSizePerVariant := adjustedSampleSize;
           totalSampleSize := Math.round totalSampleSize;
           daysToRun := Math.round daysToRun;
           weeksToRun := Math.round weeksToRun;
           monthsToRun := Math.round monthsToRun;
           variantMultiplier := Math.round variantMultiplier;
           visitorsCount := Math.round visitorsCount;
           visitorsFrequency := capitalize visitorsFrequency;
           visitorsCountDays := Math.round visitorsCountDays;
           r_baselineRate := baselineRate;
           expectedLift := mde;
           r_significance := significance;
           r_variants := variants;
           formula :=
             "Sample Size Calculator Tool Formula Version " ++ appVersion |}
  end.

(** The sample size the handler computes from the defaulted parameters. *)
Definition sampleSizeOf (params : SampleSizeCalculatorParameters)
    : option number :=
  calculateSampleSizeInternal
    {| effect := num_or (mde params) (Fin (5 / 100));
       pm_significance := num_or (significance params) (Fin 95);
       conversion := num_or (baselineRate params) (Fin (1 / 10)) |}.

(** Truthy numbers: neither NaN nor zero. *)
Definition truthy (n : number) : Prop :=
  match n with
  | NaN => False
  | Fin r => r <> 0
  | _ => True
  end.

(** The frequency names the handler recognises, compared as the handler
    does. *)
Definition knownFrequency (f : string) : bool :=
  String.eqb (toLowerCase f) "monthly"
  || String.eqb (toLowerCase f) "weekly"
  || String.eqb (toLowerCase f) "daily".

End OpalToolFunction.


(** * Properties *)

(** ** Deciding comparisons of reals *)

Lemma Rltb_true (a b : R) : a < b -> Rltb a b = true.
Proof. intros H; unfold Rltb; destruct (Rlt_dec a b); [reflexivity | contradiction]. Qed.

Lemma Rltb_false (a b : R) : b <= a -> Rltb a b = false.
Proof. intros H; unfold Rltb; destruct (Rlt_dec a b); [lra | reflexivity]. Qed.

Lemma Reqb_true (a b : R) : a = b -> Reqb a b = true.
Proof. intros H; unfold Reqb; destruct (Req_dec_T a b); [reflexivity | contradiction]. Qed.

Lemma Reqb_false (a b : R) : a <> b -> Reqb a b = false.
Proof. intros H; unfold Reqb; destruct (Req_dec_T a b); [contradiction | reflexivity]. Qed.

(** Resolve the comparisons in the goal that linear arithmetic settles. *)
Ltac rdec :=
  repeat match goal with
  | |- context [Rltb ?a ?b] =>
      first [ rewrite (Rltb_true a b) by lra | rewrite (Rltb_false a b) by lra ]
  | |- context [Reqb ?a ?b] =>
      first [ rewrite (Reqb_true a b) by lra | rewrite (Reqb_false a b) by lra ]
  end.

(** ** Integer logarithm *)

Lemma ilog10_fuel_spec (f : nat) :
  forall s : Z, (1 <= s < 2 ^ Z.of_nat f)%Z ->
  (0 <= ilog10_fuel f s /\
   10 ^ ilog10_fuel f s <= s < 10 ^ (ilog10_fuel f s + 1))%Z.
Proof.
  induction f as [|f IH]; intros s Hs.
  - simpl in Hs. lia.
  - cbn [ilog10_fuel]. destruct (Z.ltb_spec s 10) as [Hlt|Hge].
    + simpl. lia.
    + assert (Hq : (1 <= s / 10 < 2 ^ Z.of_nat f)%Z).
      { rewrite Nat2Z.inj_succ, Z.pow_succ_r in Hs by lia.
        split.
        - apply Z.div_le_lower_bound; lia.
        - apply Z.div_lt_upper_bound; lia. }
      destruct (IH _ Hq) as [H0 [Hlo Hhi]].
      set (r := ilog10_fuel f (s / 10)) in *.
      pose proof (Z.div_mod s 10 ltac:(lia)) as Hdm.
      pose proof (Z.mod_pos_bound s 10 ltac:(lia)) as Hm.
      split; [lia|].
      replace (1 + r + 1)%Z with (Z.succ (r + 1)) by lia.
      replace (1 + r)%Z with (Z.succ r) by lia.
      rewrite !Z.pow_succ_r by lia.
      lia.
Qed.

Lemma ilog10_spec (s : Z) :
  (1 <= s)%Z ->
  (0 <= ilog10 s /\ 10 ^ ilog10 s <= s < 10 ^ (ilog10 s + 1))%Z.
Proof.
  intros Hs. unfold ilog10. apply ilog10_fuel_spec.
  split; [exact Hs|].
  rewrite Nat2Z.inj_succ, Z2Nat.id by apply Z.log2_nonneg.
  apply Z.log2_spec. lia.
Qed.

Lemma pow10_lt_inv (a b : Z) :
  (0 <= a)%Z -> (0 <= b)%Z -> (10 ^ a < 10 ^ (b + 1))%Z -> (a <= b)%Z.
Proof.
  intros Ha Hb H.
  destruct (Z.le_gt_cases a b) as [Hle|Hgt]; [exact Hle|].
  exfalso.
  assert (10 ^ (b + 1) <= 10 ^ a)%Z by (apply Z.pow_le_mono_r; lia).
  lia.
Qed.

Lemma ilog10_unique (s k : Z) :
  (0 <= k)%Z -> (10 ^ k <= s < 10 ^ (k + 1))%Z -> ilog10 s = k.
Proof.
  intros Hk [Hlo Hhi].
  assert (Hs : (1 <= s)%Z).
  { pose proof (Z.pow_pos_nonneg 10 k ltac:(lia) Hk). lia. }
  destruct (ilog10_spec s Hs) as [H0 [Hlo' Hhi']].
  assert (ilog10 s <= k)%Z by (apply pow10_lt_inv; lia).
  assert (k <= ilog10 s)%Z by (apply pow10_lt_inv; lia).
  lia.
Qed.

Lemma ilog10_mono (s s' : Z) :
  (1 <= s <= s')%Z -> (ilog10 s <= ilog10 s')%Z.
Proof.
  intros [Hs Hle].
  destruct (ilog10_spec s Hs) as [H0 [Hlo Hhi]].
  destruct (ilog10_spec s' ltac:(lia)) as [H0' [Hlo' Hhi']].
  apply pow10_lt_inv; lia.
Qed.

(** ** Two significant figures on integers *)

Lemma roundHalfUpDiv_exact (q p : Z) :
  (0 < p)%Z -> roundHalfUpDiv (q * p) p = q.
Proof.
  intros Hp. unfold roundHalfUpDiv.
  symmetry. apply (Z.div_unique_pos _ _ q p); lia.
Qed.

Lemma roundHalfUpDiv_mono (s s' p : Z) :
  (0 < p)%Z -> (s <= s')%Z -> (roundHalfUpDiv s p <= roundHalfUpDiv s' p)%Z.
Proof.
  intros Hp Hle. unfold roundHalfUpDiv. apply Z.div_le_mono; lia.
Qed.

(** The two shapes of [sigFigs 2 s]: [s] itself below 100, and otherwise a
    two-digit (or, after a carry, the three-digit 100) multiple of the power
    of ten two places below the leading digit. *)
Lemma sigFigs2_cases (s : Z) :
  (1 <= s)%Z ->
  ((ilog10 s < 2)%Z /\ sigFigs 2 s = s) \/
  ((2 <= ilog10 s)%Z /\
   exists p q : Z,
     p = (10 ^ (ilog10 s - 1))%Z /\ (0 < p)%Z /\
     (10 ^ ilog10 s = 10 * p)%Z /\ (10 ^ (ilog10 s + 1) = 100 * p)%Z /\
     q = roundHalfUpDiv s p /\ (10 <= q <= 100)%Z /\
     sigFigs 2 s = (q * p)%Z).
Proof.
  intros Hs. destruct (ilog10_spec s Hs) as [H0 [Hlo Hhi]].
  unfold sigFigs. cbv zeta.
  destruct (Z.ltb_spec (ilog10 s) 2) as [Hd|Hd]; [left; split; [exact Hd | reflexivity]|].
  right. split; [exact Hd|].
  set (d := ilog10 s) in *.
  replace (d + 1 - 2)%Z with (d - 1)%Z by lia.
  set (p := (10 ^ (d - 1))%Z).
  assert (Hp : (0 < p)%Z) by (apply Z.pow_pos_nonneg; lia).
  assert (Hd10 : (10 ^ d = 10 * p)%Z).
  { unfold p. replace d with (Z.succ (d - 1)) at 1 by lia.
    rewrite Z.pow_succ_r by lia. reflexivity. }
  assert (Hd100 : (10 ^ (d + 1) = 100 * p)%Z).
  { replace (d + 1)%Z with (Z.succ d) by lia.
    rewrite Z.pow_succ_r by lia. lia. }
  exists p, (roundHalfUpDiv s p).
  repeat split; try assumption; try reflexivity.
  - unfold roundHalfUpDiv. apply Z.div_le_lower_bound; lia.
  - unfold roundHalfUpDiv.
    assert ((2 * s + p) / (2 * p) < 101)%Z by (apply Z.div_lt_upper_bound; lia).
    lia.
Qed.

Lemma sigFigs2_range (s : Z) :
  (1 <= s)%Z ->
  (10 ^ ilog10 s <= sigFigs 2 s <= 10 ^ (ilog10 s + 1))%Z.
Proof.
  intros Hs. destruct (ilog10_spec s Hs) as [H0 [Hlo Hhi]].
  destruct (sigFigs2_cases s Hs) as [[_ E]|[_ (p & q & _ & Hp & E10 & E100 & _ & Hq & E)]].
  - rewrite E. lia.
  - rewrite E, E10, E100. nia.
Qed.

Lemma sigFigs2_pos (s : Z) : (1 <= s)%Z -> (1 <= sigFigs 2 s)%Z.
Proof.
  intros Hs. destruct (ilog10_spec s Hs) as [H0 _].
  pose proof (sigFigs2_range s Hs) as [Hlo _].
  pose proof (Z.pow_pos_nonneg 10 (ilog10 s) ltac:(lia) H0). lia.
Qed.

Lemma sigFigs2_idempotent (s : Z) :
  (1 <= s)%Z -> sigFigs 2 (sigFigs 2 s) = sigFigs 2 s.
Proof.
  intros Hs. destruct (ilog10_spec s Hs) as [H0 [Hlo Hhi]].
  destruct (sigFigs2_cases s Hs) as [[Hd E]|[Hd (p & q & Ep & Hp & E10 & E100 & _ & Hq & E)]].
  - rewrite E. unfold sigFigs. cbv zeta.
    destruct (Z.ltb_spec (ilog10 s) 2); [reflexivity | lia].
  - rewrite E. set (d := ilog10 s) in *.
    destruct (Z.eq_dec q 100) as [Hq100|Hq100].
    + (* the carry: 99.5 and above becomes 100 *)
      subst q.
      assert (El : ilog10 (100 * p) = (d + 1)%Z).
      { apply ilog10_unique; [lia|].
        replace (d + 1 + 1)%Z with (Z.succ (d + 1)) by lia.
        rewrite Z.pow_succ_r by lia. lia. }
      unfold sigFigs. cbv zeta. rewrite El.
      destruct (Z.ltb_spec (d + 1) 2); [lia|].
      replace (d + 1 + 1 - 2)%Z with d by lia.
      rewrite E10.
      replace (100 * p)%Z with (10 * (10 * p))%Z by lia.
      rewrite roundHalfUpDiv_exact by lia. reflexivity.
    + assert (El : ilog10 (q * p) = d).
      { apply ilog10_unique; [lia|]. rewrite E10, E100. nia. }
      unfold sigFigs. cbv zeta. rewrite El.
      destruct (Z.ltb_spec d 2); [lia|].
      replace (d + 1 - 2)%Z with (d - 1)%Z by lia.
      rewrite <- Ep. rewrite roundHalfUpDiv_exact by lia. reflexivity.
Qed.

Lemma sigFigs2_mono (s s' : Z) :
  (1 <= s <= s')%Z -> (sigFigs 2 s <= sigFigs 2 s')%Z.
Proof.
  intros [Hs Hle].
  assert (Hs' : (1 <= s')%Z) by lia.
  pose proof (ilog10_mono s s' (conj Hs Hle)) as Hd.
  destruct (Z.eq_dec (ilog10 s) (ilog10 s')) as [Heq|Hne].
  - unfold sigFigs. cbv zeta. rewrite <- Heq.
    destruct (Z.ltb_spec (ilog10 s) 2) as [H2|H2]; [exact Hle|].
    assert (0 < 10 ^ (ilog10 s + 1 - 2))%Z by (apply Z.pow_pos_nonneg; lia).
    apply Z.mul_le_mono_nonneg_r; [lia|].
    apply roundHalfUpDiv_mono; lia.
  - pose proof (sigFigs2_range s Hs) as [_ Hhi].
    pose proof (sigFigs2_range s' Hs') as [Hlo _].
    destruct (ilog10_spec s Hs) as [H0 _].
    assert (10 ^ (ilog10 s + 1) <= 10 ^ ilog10 s')%Z
      by (apply Z.pow_le_mono_r; lia).
    lia.
Qed.

(** ** Floors, powers of ten and logarithms *)

Lemma Zfloor_IZR_half (z : Z) : Zfloor (IZR z + / 2) = z.
Proof. apply Zfloor_eq. lra. Qed.

Lemma Zfloor_div (a b : Z) :
  (0 < b)%Z -> Zfloor (IZR a / IZR b) = (a / b)%Z.
Proof.
  intros Hb. apply Zfloor_eq.
  pose proof (Z.div_mod a b ltac:(lia)) as Hdm.
  pose proof (Z.mod_pos_bound a b Hb) as Hm.
  assert (HbR : 0 < IZR b) by (apply IZR_lt; exact Hb).
  assert (Ha : IZR a = IZR b * IZR (a / b) + IZR (a mod b)).
  { rewrite <- mult_IZR, <- plus_IZR. f_equal. exact Hdm. }
  assert (H0 : 0 <= IZR (a mod b)) by (apply IZR_le; lia).
  assert (H1 : IZR (a mod b) < IZR b) by (apply IZR_lt; lia).
  split.
  - apply Rmult_le_reg_r with (IZR b); [exact HbR|].
    unfold Rdiv. rewrite Rmult_assoc, Rinv_l by lra. lra.
  - apply Rmult_lt_reg_r with (IZR b); [exact HbR|].
    unfold Rdiv. rewrite Rmult_assoc, Rinv_l by lra. lra.
Qed.

Lemma Zfloor_round_div (s p : Z) :
  (0 < p)%Z -> Zfloor (IZR s * / IZR p + / 2) = roundHalfUpDiv s p.
Proof.
  intros Hp. unfold roundHalfUpDiv.
  rewrite <- Zfloor_div by lia.
  f_equal. rewrite plus_IZR, !mult_IZR.
  assert (IZR p <> 0) by (apply not_0_IZR; lia).
  field. assumption.
Qed.

Lemma ln10_pos : 0 < ln 10.
Proof. rewrite <- ln_1. apply ln_increasing; lra. Qed.

Lemma IZR_pow10 (d : Z) :
  (0 <= d)%Z -> IZR (10 ^ d) = Rpower 10 (IZR d).
Proof.
  intros Hd.
  rewrite <- (Z2Nat.id d Hd).
  rewrite <- pow_IZR, <- INR_IZR_INZ, Rpower_pow by lra.
  reflexivity.
Qed.

Lemma Rpower10_pos (y : R) : 0 < Rpower 10 y.
Proof. unfold Rpower. apply exp_pos. Qed.

Lemma floor_log10 (s : Z) :
  (1 <= s)%Z -> Zfloor (ln (IZR s) / ln 10) = ilog10 s.
Proof.
  intros Hs. destruct (ilog10_spec s Hs) as [H0 [Hlo Hhi]].
  pose proof ln10_pos as Hl.
  assert (HsR : 0 < IZR s) by (apply IZR_lt; lia).
  apply Zfloor_eq. split.
  - apply Rmult_le_reg_r with (ln 10); [exact Hl|].
    unfold Rdiv. rewrite Rmult_assoc, Rinv_l by lra. rewrite Rmult_1_r.
    rewrite <- ln_Rpower, <- IZR_pow10 by exact H0.
    apply IZR_le in Hlo.
    destruct (Rle_lt_or_eq_dec _ _ Hlo) as [Hlt|Heq].
    + left. apply ln_increasing; [|exact Hlt].
      apply IZR_lt. apply Z.pow_pos_nonneg; lia.
    + right. rewrite Heq. reflexivity.
  - apply Rmult_lt_reg_r with (ln 10); [exact Hl|].
    unfold Rdiv. rewrite Rmult_assoc, Rinv_l by lra. rewrite Rmult_1_r.
    rewrite <- plus_IZR.
    rewrite <- ln_Rpower, <- IZR_pow10 by lia.
    apply ln_increasing; [exact HsR|].
    apply IZR_lt. exact Hhi.
Qed.

(** ** The number operations on finite values *)

Lemma div_Fin (x y : R) : y <> 0 -> div (Fin x) (Fin y) = Fin (x / y).
Proof. intros H. unfold div. rewrite Reqb_false by exact H. reflexivity. Qed.

Lemma div_Fin_zero (x : R) :
  div (Fin x) (Fin 0) =
  if Reqb x 0 then NaN else if Rltb 0 x then PInf else NInf.
Proof. unfold div. rewrite Reqb_true by reflexivity. reflexivity. Qed.

Lemma log_Fin (x : R) : 0 < x -> Math.log (Fin x) = Fin (ln x).
Proof.
  intros H. unfold Math.log.
  rewrite Rltb_false by lra. rewrite Reqb_false by lra. reflexivity.
Qed.

Lemma sqrt_Fin (x : R) : 0 <= x -> Math.sqrt (Fin x) = Fin (sqrt x).
Proof. intros H. unfold Math.sqrt. rewrite Rltb_false by lra. reflexivity. Qed.

Lemma sqrt_Fin_neg (x : R) : x < 0 -> Math.sqrt (Fin x) = NaN.
Proof. intros H. unfold Math.sqrt. rewrite Rltb_true by lra. reflexivity. Qed.

Lemma round_Fin_IZR (z : Z) : Math.round (Fin (IZR z)) = Fin (IZR z).
Proof. unfold Math.round. rewrite Zfloor_IZR_half. reflexivity. Qed.

(** ** [roundToSigFigs] keeps two significant figures *)

Lemma roundToSigFigs_of_round (n : number) (s : Z) :
  (1 <= s)%Z -> Math.round n = Fin (IZR s) ->
  roundToSigFigs n = Fin (IZR (sigFigs 2 s)).
Proof.
  intros Hs Hr.
  assert (HsR : 0 < IZR s) by (apply IZR_lt; lia).
  pose proof ln10_pos as Hl.
  unfold roundToSigFigs. cbv zeta. rewrite Hr.
  rewrite log_Fin by exact HsR.
  unfold Math.LN10. rewrite div_Fin by lra.
  unfold Math.floor. rewrite floor_log10 by exact Hs.
  destruct (ilog10_spec s Hs) as [H0 _].
  cbn [sub neg add Math.pow10 mul].
  destruct (sigFigs2_cases s Hs)
    as [[Hd E]|[Hd (p & q & Ep & Hp & E10 & E100 & Eq & Hq & E)]].
  - (* fewer than three digits: the scale is 10 or 1 *)
    rewrite E.
    set (T := (10 ^ (1 - ilog10 s))%Z).
    assert (HT : (0 < T)%Z) by (apply Z.pow_pos_nonneg; lia).
    assert (HTR : IZR T <> 0) by (apply not_0_IZR; lia).
    replace (Rpower 10 (2 + - IZR (ilog10 s) + - (1))) with (IZR T).
    2:{ unfold T. rewrite IZR_pow10 by lia. rewrite minus_IZR. f_equal. ring. }
    rewrite <- mult_IZR, round_Fin_IZR.
    rewrite div_Fin by exact HTR.
    replace (IZR (s * T) / IZR T) with (IZR s)
      by (rewrite mult_IZR; field; exact HTR).
    apply round_Fin_IZR.
  - (* three digits or more: the scale is the inverse of [p] *)
    rewrite E.
    assert (HpR : 0 < IZR p) by (apply IZR_lt; exact Hp).
    replace (Rpower 10 (2 + - IZR (ilog10 s) + - (1))) with (/ IZR p).
    2:{ rewrite Ep, IZR_pow10 by lia. rewrite <- Rpower_Ropp.
        rewrite minus_IZR. f_equal. ring. }
    unfold Math.round at 2. rewrite Zfloor_round_div by exact Hp.
    rewrite <- Eq.
    assert (Hinv : / IZR p <> 0) by (apply Rinv_neq_0_compat; lra).
    rewrite div_Fin by exact Hinv.
    replace (IZR q / / IZR p) with (IZR (q * p))
      by (rewrite mult_IZR; field; lra).
    apply round_Fin_IZR.
Qed.

Lemma roundToSigFigs_Fin (x : R) :
  / 2 <= x -> roundToSigFigs (Fin x) = Fin (IZR (sigFigs 2 (Zfloor (x + / 2)))).
Proof.
  intros Hx. apply roundToSigFigs_of_round; [|reflexivity].
  apply Zfloor_lub. simpl. lra.
Qed.

(** When the argument rounds to zero or to a negative integer the logarithm
    is not a finite number and the result is NaN. *)
Lemma roundToSigFigs_of_round_nonpos (n : number) (s : Z) :
  (s <= 0)%Z -> Math.round n = Fin (IZR s) -> roundToSigFigs n = NaN.
Proof.
  intros Hs Hr.
  pose proof ln10_pos as Hl.
  unfold roundToSigFigs. cbv zeta. rewrite Hr.
  destruct (Z.eq_dec s 0) as [E|E].
  - rewrite E. unfold Math.log. rdec.
    unfold Math.LN10, div at 2. rdec.
    cbn. unfold inf_times. rdec. reflexivity.
  - assert (IZR s < 0) by (apply IZR_lt; lia).
    unfold Math.log. rdec. reflexivity.
Qed.

Lemma roundToSigFigs_small (x : R) : x < / 2 -> roundToSigFigs (Fin x) = NaN.
Proof.
  intros Hx.
  apply (roundToSigFigs_of_round_nonpos _ (Zfloor (x + / 2))); [|reflexivity].
  pose proof (Zfloor_bound (x + / 2)) as [Hb _].
  assert (H : IZR (Zfloor (x + / 2)) < 1) by lra.
  apply lt_IZR in H. lia.
Qed.

(** ** The candidates on finite values *)

Lemma div_NaN_l (b : number) : div NaN b = NaN.
Proof. reflexivity. Qed.

Lemma mul_NaN_r (a : number) : mul a NaN = NaN.
Proof. destruct a; reflexivity. Qed.

Lemma ge_NaN_l (b : number) : ge NaN b = false.
Proof. reflexivity. Qed.

Lemma ge_NaN_r (a : number) : ge a NaN = false.
Proof. destruct a; reflexivity. Qed.

Lemma estimateValue_nonneg (confidence v th : R) :
  0 <= confidence -> 0 <= v -> 0 < th -> 0 <= estimateValue confidence v th.
Proof.
  intros Hc Hv Ht. unfold estimateValue.
  assert (Hs : 0 <= sqrt v / th).
  { apply Rmult_le_pos; [apply sqrt_pos | left; apply Rinv_0_lt_compat; exact Ht]. }
  assert (Hl : 0 <= ln (1 + sqrt v / th)).
  { rewrite <- ln_1. destruct Hs as [Hs|Hs].
    - left. apply ln_increasing; lra.
    - rewrite <- Hs, Rplus_0_r. right. reflexivity. }
  apply Rmult_le_pos.
  - repeat apply Rmult_le_pos; lra.
  - left. apply Rinv_0_lt_compat. nra.
Qed.

Lemma candidate_Fin (confidence v th : R) :
  0 <= v -> 0 < th ->
  candidate (Fin confidence) (Fin v) (Fin th) =
  Fin (estimateValue confidence v th).
Proof.
  intros Hv Ht. unfold candidate.
  rewrite sqrt_Fin by exact Hv.
  rewrite div_Fin by lra.
  cbn [add mul].
  assert (Hs : 0 <= sqrt v / th).
  { apply Rmult_le_pos; [apply sqrt_pos | left; apply Rinv_0_lt_compat; exact Ht]. }
  rewrite log_Fin by lra.
  rewrite div_Fin by nra.
  reflexivity.
Qed.

Lemma candidate_neg (confidence th : number) (v : R) :
  v < 0 -> candidate confidence (Fin v) th = NaN.
Proof.
  intros Hv. unfold candidate.
  rewrite sqrt_Fin_neg by exact Hv.
  rewrite div_NaN_l. cbn [add Math.log].
  rewrite mul_NaN_r. apply div_NaN_l.
Qed.

(** The selected estimate on finite arguments, in terms of the two shifted
    variances. *)
Lemma sampleEstimate_Fin (c e sd : R) :
  sampleEstimate (intermediates (Fin c) (Fin e) (Fin sd)) =
  let e1 := candidate (Fin sd) (Fin (shiftedVariance c (- (c * e))))
              (Fin (Rabs (c * e))) in
  let e2 := candidate (Fin sd) (Fin (shiftedVariance c (c * e)))
              (Fin (Rabs (c * e))) in
  if ge (Math.abs e1) (Math.abs e2) then e1 else e2.
Proof.
  unfold intermediates, sampleEstimate.
  cbn [sub neg add mul Math.abs]. cbv zeta.
  replace (1 + - (1 + - sd)) with sd by ring.
  replace (c * (1 + - c) + (c + - (c * e)) * (1 + - (c + - (c * e))))
    with (shiftedVariance c (- (c * e))) by (unfold shiftedVariance; ring).
  replace (c * (1 + - c) + (c + c * e) * (1 + - (c + c * e)))
    with (shiftedVariance c (c * e)) by (unfold shiftedVariance; ring).
  reflexivity.
Qed.

Lemma sampleEstimate1_Fin (c e sd : R) :
  sampleEstimate1 (intermediates (Fin c) (Fin e) (Fin sd)) =
  candidate (Fin sd) (Fin (shiftedVariance c (- (c * e)))) (Fin (Rabs (c * e))).
Proof.
  unfold intermediates, sampleEstimate1.
  cbn [sub neg add mul Math.abs].
  replace (1 + - (1 + - sd)) with sd by ring.
  replace (c * (1 + - c) + (c + - (c * e)) * (1 + - (c + - (c * e))))
    with (shiftedVariance c (- (c * e))) by (unfold shiftedVariance; ring).
  reflexivity.
Qed.

Lemma sampleEstimate2_Fin (c e sd : R) :
  sampleEstimate2 (intermediates (Fin c) (Fin e) (Fin sd)) =
  candidate (Fin sd) (Fin (shiftedVariance c (c * e))) (Fin (Rabs (c * e))).
Proof.
  unfold intermediates, sampleEstimate2.
  cbn [sub neg add mul Math.abs].
  replace (1 + - (1 + - sd)) with sd by ring.
  replace (c * (1 + - c) + (c + c * e) * (1 + - (c + c * e)))
    with (shiftedVariance c (c * e)) by (unfold shiftedVariance; ring).
  reflexivity.
Qed.

(** The validation step, by the shape of the selected estimate. *)
Lemma sampleSizeEstimate_valid (c e s : number) (x : R) :
  sampleEstimate (intermediates c e s) = Fin x -> 0 <= x ->
  sampleSizeEstimate c e s = Some (roundToSigFigs (Fin x)).
Proof.
  intros E Hx. unfold sampleSizeEstimate. cbv zeta. rewrite E.
  unfold isNumeric, parseFloat, isNaN, isFinite, lt.
  rewrite Rltb_false by lra. reflexivity.
Qed.

Lemma sampleSizeEstimate_negative (c e s : number) (x : R) :
  sampleEstimate (intermediates c e s) = Fin x -> x < 0 ->
  sampleSizeEstimate c e s = None.
Proof.
  intros E Hx. unfold sampleSizeEstimate. cbv zeta. rewrite E.
  unfold isNumeric, parseFloat, isNaN, isFinite, lt.
  rewrite Rltb_true by lra. reflexivity.
Qed.

Lemma sampleSizeEstimate_not_finite (c e s : number) :
  isFinite (sampleEstimate (intermediates c e s)) = false ->
  sampleSizeEstimate c e s = None.
Proof.
  intros E. unfold sampleSizeEstimate. cbv zeta.
  unfold isNumeric. rewrite E.
  rewrite andb_false_r. reflexivity.
Qed.

(** ** Bounds on the logarithm of two *)

Lemma exp_three_quarters : 2 < exp (3 / 4).
Proof.
  pose proof (exp_ineq1_le (3 / 32)) as Ha.
  assert (Hb : exp (3 / 16) = exp (3 / 32) * exp (3 / 32))
    by (rewrite <- exp_plus; f_equal; lra).
  assert (Hc : exp (3 / 8) = exp (3 / 16) * exp (3 / 16))
    by (rewrite <- exp_plus; f_equal; lra).
  assert (Hd : exp (3 / 4) = exp (3 / 8) * exp (3 / 8))
    by (rewrite <- exp_plus; f_equal; lra).
  assert (Hb' : 119 / 100 <= exp (3 / 16)) by nra.
  assert (Hc' : 141 / 100 <= exp (3 / 8)) by nra.
  nra.
Qed.

Lemma ln2_bounds : / 2 < ln 2 < 3 / 4.
Proof.
  split; [exact ln_lt_2|].
  apply exp_lt_inv. rewrite exp_ln by lra. exact exp_three_quarters.
Qed.

Lemma sqrt_quarter : sqrt (1 / 4) = 1 / 2.
Proof. apply sqrt_lem_1; lra. Qed.

(** The estimate when the variance is 1/4 and theta is 1/2. *)
Lemma estimateValue_quarter_half (confidence : R) :
  estimateValue confidence (1 / 4) (1 / 2) = 2 * confidence * ln 2.
Proof.
  unfold estimateValue. rewrite sqrt_quarter.
  replace (1 + 1 / 2 / (1 / 2)) with 2 by field.
  field.
Qed.

Lemma roundToSigFigs_one (x : R) :
  / 2 <= x < 3 / 2 -> roundToSigFigs (Fin x) = Fin 1.
Proof.
  intros Hx. rewrite roundToSigFigs_Fin by lra.
  replace (Zfloor (x + / 2)) with 1%Z
    by (symmetry; apply Zfloor_eq; simpl; lra).
  reflexivity.
Qed.

(** ** Values at particular arguments *)

Lemma roundToSigFigs_integer (s : Z) :
  (1 <= s)%Z -> roundToSigFigs (Fin (IZR s)) = Fin (IZR (sigFigs 2 s)).
Proof.
  intros Hs. apply roundToSigFigs_of_round; [exact Hs | apply round_Fin_IZR].
Qed.

Lemma roundToSigFigs_12345 : roundToSigFigs (Fin 12345) = Fin 12000.
Proof. rewrite roundToSigFigs_integer by lia. reflexivity. Qed.

Lemma Fin_inj (x y : R) : Fin x = Fin y -> x = y.
Proof. intros H; injection H; trivial. Qed.

(** Baseline 1/2 and effect 1: both variances are 1/4 and theta is 1/2. *)
Lemma sampleEstimate_half_one (sd : R) :
  sampleEstimate (intermediates (Fin (1 / 2)) (Fin 1) (Fin sd)) =
  Fin (2 * sd * ln 2).
Proof.
  rewrite sampleEstimate_Fin. cbv zeta.
  replace (shiftedVariance (1 / 2) (- (1 / 2 * 1))) with (1 / 4)
    by (unfold shiftedVariance; lra).
  replace (shiftedVariance (1 / 2) (1 / 2 * 1)) with (1 / 4)
    by (unfold shiftedVariance; lra).
  replace (Rabs (1 / 2 * 1)) with (1 / 2) by (rewrite Rabs_right; lra).
  rewrite candidate_Fin by lra.
  rewrite estimateValue_quarter_half.
  destruct (ge _ _); reflexivity.
Qed.

Lemma sampleSizeEstimate_half_one_95 :
  sampleSizeEstimate (Fin (1 / 2)) (Fin 1) (Fin (95 / 100)) = Some (Fin 1).
Proof.
  pose proof ln2_bounds as Hl.
  rewrite (sampleSizeEstimate_valid _ _ _ _ (sampleEstimate_half_one _)) by lra.
  rewrite roundToSigFigs_one by lra. reflexivity.
Qed.

(** Baseline 1 and effect -1/2: the first variance is negative, the second
    is 1/4, and the first candidate is NaN. *)
Lemma sampleEstimate_one_minus_half (sd : R) :
  sampleEstimate1 (intermediates (Fin 1) (Fin (-1 / 2)) (Fin sd)) = NaN /\
  sampleEstimate (intermediates (Fin 1) (Fin (-1 / 2)) (Fin sd)) =
  Fin (2 * sd * ln 2).
Proof.
  split.
  - rewrite sampleEstimate1_Fin.
    apply candidate_neg. unfold shiftedVariance. lra.
  - rewrite sampleEstimate_Fin. cbv zeta.
    rewrite candidate_neg by (unfold shiftedVariance; lra).
    cbn [Math.abs]. rewrite ge_NaN_l.
    replace (shiftedVariance 1 (1 * (-1 / 2))) with (1 / 4)
      by (unfold shiftedVariance; lra).
    replace (Rabs (1 * (-1 / 2))) with (1 / 2)
      by (rewrite Rabs_left; lra).
    rewrite candidate_Fin by lra.
    rewrite estimateValue_quarter_half. reflexivity.
Qed.

(** Baseline 1 and effect 1/2: the second candidate is NaN and is the one
    selected. *)
Lemma sampleEstimate_one_plus_half (sd : R) :
  sampleEstimate (intermediates (Fin 1) (Fin (1 / 2)) (Fin sd)) = NaN.
Proof.
  rewrite sampleEstimate_Fin. cbv zeta.
  rewrite (candidate_neg _ _ (shiftedVariance 1 (1 * (1 / 2))))
    by (unfold shiftedVariance; lra).
  cbn [Math.abs]. rewrite ge_NaN_r. reflexivity.
Qed.

(** ** The selection between the two candidates *)

(** When the first candidate is not NaN and the selected estimate passes
    the validation, the selected estimate is the larger of the two absolute
    values. *)
Lemma sampleEstimate_is_maximum (c e s : number) (x : R) :
  sampleEstimate1 (intermediates c e s) <> NaN ->
  sampleEstimate (intermediates c e s) = Fin x -> 0 <= x ->
  sampleEstimate (intermediates c e s) =
  Math.max (Math.abs (sampleEstimate1 (intermediates c e s)))
           (Math.abs (sampleEstimate2 (intermediates c e s))).
Proof.
  unfold intermediates. cbn [sampleEstimate sampleEstimate1 sampleEstimate2].
  set (e1 := candidate _ _ _). set (e2 := candidate _ _ _).
  intros H1 E Hx. rewrite E.
  destruct e1 as [| | |a]; [contradiction| | |];
    destruct e2 as [| | |b]; cbn in E; try discriminate E.
  cbn [Math.abs Math.max ge lt] in E |- *.
  unfold Rltb in E |- *.
  destruct (Rlt_dec (Rabs a) (Rabs b)); cbn [negb] in E |- *;
    apply Fin_inj in E; subst x; rewrite Rabs_right by lra; reflexivity.
Qed.

(** ** Zero effect *)

Lemma div_not_finite (y : number) (z : R) :
  isFinite y = false -> isFinite (div y (Fin z)) = false.
Proof.
  destruct y; intros H; try discriminate H; cbn; try reflexivity;
    destruct (Rltb z 0); reflexivity.
Qed.

Lemma mul_PInf_not_finite (x : number) : isFinite (mul x PInf) = false.
Proof.
  destruct x; cbn; try reflexivity.
  unfold inf_times. destruct (Reqb r 0); [reflexivity|].
  destruct (Rltb 0 r); reflexivity.
Qed.

Lemma candidate_theta_zero (confidence : number) (v : R) :
  0 < v -> isFinite (candidate confidence (Fin v) (Fin 0)) = false.
Proof.
  intros Hv. unfold candidate.
  rewrite sqrt_Fin by lra.
  pose proof (sqrt_lt_R0 v Hv) as Hs.
  rewrite div_Fin_zero. rewrite Reqb_false by lra. rewrite Rltb_true by lra.
  cbn [add Math.log].
  change (mul (Fin 0) (Fin 0)) with (Fin (0 * 0)).
  apply div_not_finite. apply mul_PInf_not_finite.
Qed.

(** ** Monotonicity of the estimate *)

Lemma ln_le_compat (x y : R) : 0 < x -> x <= y -> ln x <= ln y.
Proof.
  intros Hx [Hlt|Heq].
  - left. apply ln_increasing; assumption.
  - right. rewrite Heq. reflexivity.
Qed.




(** What a finite result says about the selected estimate: it is the
    estimate along a direction of non-negative variance, at least one half,
    and no smaller than the estimate along any direction of non-negative
    variance. *)
Lemma sampleSizeEstimate_Fin_inv (c e sd r : R) :
  c * e <> 0 ->
  sampleSizeEstimate (Fin c) (Fin e) (Fin sd) = Some (Fin r) ->
  exists x m : R,
    / 2 <= x /\
    r = IZR (sigFigs 2 (Zfloor (x + / 2))) /\
    (m = c * e \/ m = - (c * e)) /\
    0 <= shiftedVariance c m /\
    x = estimateValue sd (shiftedVariance c m) (Rabs (c * e)) /\
    (forall m' : R,
       m' = c * e \/ m' = - (c * e) -> 0 <= shiftedVariance c m' ->
       estimateValue sd (shiftedVariance c m') (Rabs (c * e)) <= x).
Proof.
  intros Hce H.
  assert (Hth : 0 < Rabs (c * e)) by (apply Rabs_pos_lt; exact Hce).
  pose proof (sampleEstimate_Fin c e sd) as E. cbv zeta in E.
  set (v1 := shiftedVariance c (- (c * e))) in *.
  set (v2 := shiftedVariance c (c * e)) in *.
  set (th := Rabs (c * e)) in *.
  (* the validation and the rounding, once the selected estimate is known *)
  assert (Hfin : forall x, sampleEstimate (intermediates (Fin c) (Fin e) (Fin sd)) = Fin x ->
             / 2 <= x /\ r = IZR (sigFigs 2 (Zfloor (x + / 2)))).
  { intros x Ex.
    destruct (Rlt_le_dec x 0) as [Hneg|Hpos].
    - rewrite (sampleSizeEstimate_negative _ _ _ _ Ex Hneg) in H. discriminate H.
    - rewrite (sampleSizeEstimate_valid _ _ _ _ Ex Hpos) in H.
      destruct (Rlt_le_dec x (/ 2)) as [Hsmall|Hbig].
      + rewrite roundToSigFigs_small in H by exact Hsmall. discriminate H.
      + rewrite roundToSigFigs_Fin in H by exact Hbig.
        split; [exact Hbig|]. injection H as H. symmetry. exact H. }
  assert (Hnan : sampleEstimate (intermediates (Fin c) (Fin e) (Fin sd)) = NaN -> False).
  { intros Ex. rewrite sampleSizeEstimate_not_finite in H by (rewrite Ex; reflexivity).
    discriminate H. }
  destruct (Rlt_le_dec v2 0) as [Hv2|Hv2].
  { (* the second candidate is NaN and is selected *)
    exfalso. apply Hnan. rewrite E.
    rewrite (candidate_neg _ _ v2) by exact Hv2.
    cbn [Math.abs]. rewrite ge_NaN_r. reflexivity. }
  rewrite (candidate_Fin sd v2 th) in E by assumption.
  destruct (Rlt_le_dec v1 0) as [Hv1|Hv1].
  - (* the first candidate is NaN: the second is selected *)
    rewrite (candidate_neg _ _ v1) in E by exact Hv1.
    cbn [Math.abs] in E. rewrite ge_NaN_l in E.
    destruct (Hfin _ E) as [Hx Hr].
    exists (estimateValue sd v2 th), (c * e).
    repeat split; try assumption; try reflexivity; [left; reflexivity|].
    intros m' [-> | ->] Hm'; [right; reflexivity|].
    fold v1 in Hm'. lra.
  - rewrite (candidate_Fin sd v1 th) in E by assumption.
    cbn [Math.abs ge lt] in E.
    set (g1 := estimateValue sd v1 th) in *.
    set (g2 := estimateValue sd v2 th) in *.
    unfold Rltb in E.
    destruct (Rlt_dec (Rabs g1) (Rabs g2)) as [Hlt|Hge]; cbn [negb] in E.
    + destruct (Hfin _ E) as [Hx Hr].
      exists g2, (c * e).
      repeat split; try assumption; try reflexivity; [left; reflexivity|].
      intros m' [-> | ->] Hm'; [right; reflexivity|].
      fold v1 g1.
      pose proof (Rle_abs g1). rewrite (Rabs_right g2) in Hlt by lra. lra.
    + destruct (Hfin _ E) as [Hx Hr].
      exists g1, (- (c * e)).
      repeat split; try assumption; try reflexivity; [right; reflexivity|].
      intros m' [-> | ->] Hm'; [|right; reflexivity].
      fold v2 g2.
      pose proof (Rle_abs g2). rewrite (Rabs_right g1) in Hge by lra. lra.
Qed.

(** ** A second evaluation: baseline 1/2, effect 9/10 *)

Lemma ln2_lower : 66 / 100 < ln 2.
Proof.
  apply exp_lt_inv. rewrite exp_ln by lra.
  pose proof (exp_ineq1_le (- (33 / 400))) as Ha.
  assert (Hb : exp (- (33 / 200)) = exp (- (33 / 400)) * exp (- (33 / 400)))
    by (rewrite <- exp_plus; f_equal; lra).
  assert (Hc : exp (- (33 / 100)) = exp (- (33 / 200)) * exp (- (33 / 200)))
    by (rewrite <- exp_plus; f_equal; lra).
  assert (Hd : exp (- (66 / 100)) = exp (- (33 / 100)) * exp (- (33 / 100)))
    by (rewrite <- exp_plus; f_equal; lra).
  assert (Hb' : 8418 / 10000 <= exp (- (33 / 200))) by nra.
  assert (Hc' : 7086 / 10000 <= exp (- (33 / 100))) by nra.
  assert (Hd' : / 2 < exp (- (66 / 100))) by nra.
  assert (He : exp (66 / 100) * exp (- (66 / 100)) = 1)
    by (rewrite <- exp_plus; replace (66 / 100 + - (66 / 100)) with 0 by lra;
        apply exp_0).
  pose proof (exp_pos (66 / 100)) as Hp.
  nra.
Qed.

Lemma ln_one_plus_le (x : R) : -1 < x -> ln (1 + x) <= x.
Proof.
  intros Hx. pose proof (exp_ineq1_le x) as H.
  apply Rle_trans with (ln (exp x)); [apply ln_le_compat; lra|].
  rewrite ln_exp. lra.
Qed.

Lemma sampleSizeEstimate_half_nine_tenths_95 :
  sampleSizeEstimate (Fin (1 / 2)) (Fin (9 / 10)) (Fin (95 / 100)) = Some (Fin 2).
Proof.
  set (L := ln (1 + sqrt (119 / 400) / (9 / 20))).
  assert (Hs : 27 / 50 <= sqrt (119 / 400) <= 9 / 16).
  { split.
    - apply Rle_trans with (sqrt (27 / 50 * (27 / 50)));
        [rewrite sqrt_square; lra | apply sqrt_le_1_alt; lra].
    - apply Rle_trans with (sqrt (9 / 16 * (9 / 16)));
        [apply sqrt_le_1_alt; lra | rewrite sqrt_square; lra]. }
  assert (HL : 66 / 100 < L <= 875 / 1000).
  { unfold L. split.
    - apply Rlt_le_trans with (ln 2); [exact ln2_lower|].
      apply ln_le_compat; lra.
    - apply Rle_trans with (ln (2 * (1 + 1 / 8))).
      + apply ln_le_compat; lra.
      + rewrite ln_mult by lra.
        pose proof ln2_bounds. pose proof (ln_one_plus_le (1 / 8)). lra. }
  assert (E : sampleEstimate (intermediates (Fin (1 / 2)) (Fin (9 / 10)) (Fin (95 / 100)))
              = Fin (2 * (95 / 100) * (119 / 400) * L / (9 / 20 * (9 / 20)))).
  { rewrite sampleEstimate_Fin. cbv zeta.
    replace (shiftedVariance (1 / 2) (- (1 / 2 * (9 / 10)))) with (119 / 400)
      by (unfold shiftedVariance; lra).
    replace (shiftedVariance (1 / 2) (1 / 2 * (9 / 10))) with (119 / 400)
      by (unfold shiftedVariance; lra).
    replace (Rabs (1 / 2 * (9 / 10))) with (9 / 20) by (rewrite Rabs_right; lra).
    rewrite candidate_Fin by lra.
    destruct (ge _ _); reflexivity. }
  rewrite (sampleSizeEstimate_valid _ _ _ _ E) by lra.
  rewrite roundToSigFigs_Fin by lra.
  replace (Zfloor (2 * (95 / 100) * (119 / 400) * L / (9 / 20 * (9 / 20)) + / 2))
    with 2%Z by (symmetry; apply Zfloor_eq; simpl; lra).
  reflexivity.
Qed.

(** ** The handler's arithmetic *)

Lemma num_or_truthy (x : option number) (d : number) :
  OpalToolFunction.truthy d -> OpalToolFunction.truthy (OpalToolFunction.num_or x d).
Proof.
  intros Hd. destruct x as [[| | |r]|]; cbn; try exact Hd; try exact I.
  unfold Reqb. destruct (Req_dec_T r 0); [exact Hd | assumption].
Qed.

Lemma div_zero_truthy (b : number) :
  OpalToolFunction.truthy b -> div (Fin 0) b = Fin 0.
Proof.
  destruct b as [| | |r]; cbn; intros H; try contradiction; try reflexivity.
  rewrite Reqb_false by exact H. f_equal. unfold Rdiv. ring.
Qed.

Lemma div_by_zero_not_finite (a : number) : isFinite (div a (Fin 0)) = false.
Proof.
  destruct a as [| | |x]; cbn; try reflexivity.
  - destruct (Rltb 0 0); reflexivity.
  - destruct (Rltb 0 0); reflexivity.
  - rewrite Reqb_true by reflexivity.
    destruct (Reqb x 0); [reflexivity|]. destruct (Rltb 0 x); reflexivity.
Qed.

Lemma isFinite_round (a : number) : isFinite (Math.round a) = isFinite a.
Proof. destruct a; reflexivity. Qed.

Lemma str_or_nonempty (f d : string) :
  f <> EmptyString -> OpalToolFunction.str_or (Some f) d = f.
Proof. destruct f; [contradiction | reflexivity]. Qed.

Lemma calculateSampleSizeInternal_eq (pm : OpalToolFunction.processedModels) :
  OpalToolFunction.calculateSampleSizeInternal pm =
  sampleSizeEstimate (OpalToolFunction.conversion pm) (OpalToolFunction.effect pm)
    (div (OpalToolFunction.pm_significance pm) (Fin 100)).
Proof. reflexivity. Qed.

Lemma num_or_Fin (r : R) (d : number) :
  r <> 0 -> OpalToolFunction.num_or (Some (Fin r)) d = Fin r.
Proof. intros H. cbn. rewrite Reqb_false by exact H. reflexivity. Qed.

(** Baseline 1/2, effect 1 and significance 95 percent give the sample
    size 1. *)
Lemma sampleSizeOf_half_one_95 (v n : option number) (f : option string) :
  OpalToolFunction.sampleSizeOf
    {| OpalToolFunction.baselineRate := Some (Fin (1 / 2));
       OpalToolFunction.mde := Some (Fin 1);
       OpalToolFunction.significance := Some (Fin 95);
       OpalToolFunction.variants := v;
       OpalToolFunction.visitors := n;
       OpalToolFunction.frequency := f |} = Some (Fin 1).
Proof.
  unfold OpalToolFunction.sampleSizeOf.
  rewrite calculateSampleSizeInternal_eq.
  cbn [OpalToolFunction.conversion OpalToolFunction.effect
       OpalToolFunction.pm_significance OpalToolFunction.mde
       OpalToolFunction.baselineRate OpalToolFunction.significance].
  rewrite !num_or_Fin by lra.
  rewrite div_Fin by lra.
  exact sampleSizeEstimate_half_one_95.
Qed.

(** * The claims *)

(** C1: the rounding step at 12345.  The scale factor is
    [10^(2 - floor(log10 s) - 1)], so two significant figures are kept, not
    three: 12345 is mapped to 12000, where keeping three figures gives
    12300; 87 and 4 are mapped to themselves.  The private copy in the tool
    class does the same. *)
Theorem roundToSigFigs_keeps_two_figures :
  roundToSigFigs (Fin 12345) = Fin 12000 /\
  roundToSigFigs (Fin 12345) <> Fin 12300 /\
  OpalToolFunction.roundToSigFigs (Fin 12345) = Fin 12000 /\
  sigFigs 3 12345 = 12300%Z /\
  roundToSigFigs (Fin 87) = Fin 87 /\
  roundToSigFigs (Fin 4) = Fin 4.
Proof.
  repeat split.
  - exact roundToSigFigs_12345.
  - rewrite roundToSigFigs_12345. intros H. apply Fin_inj in H. lra.
  - exact roundToSigFigs_12345.
  - rewrite roundToSigFigs_integer by lia. reflexivity.
  - rewrite roundToSigFigs_integer by lia. reflexivity.
Qed.

(** C2: baseline 1/2, effect 1, significance 1/10.  The selected estimate
    is [0.2 * ln 2], which passes the validation (it is finite and not
    negative) and reaches the rounding step, where it rounds to zero: the
    result is NaN, neither null nor a finite non-negative number. *)
Theorem sampleSizeEstimate_returns_NaN :
  sampleEstimate (intermediates (Fin (1 / 2)) (Fin 1) (Fin (1 / 10))) =
    Fin (2 * (1 / 10) * ln 2) /\
  Math.round (Fin (2 * (1 / 10) * ln 2)) = Fin 0 /\
  sampleSizeEstimate (Fin (1 / 2)) (Fin 1) (Fin (1 / 10)) = Some NaN.
Proof.
  pose proof ln2_bounds as Hl.
  repeat split.
  - apply sampleEstimate_half_one.
  - unfold Math.round.
    replace (Zfloor (2 * (1 / 10) * ln 2 + / 2)) with 0%Z
      by (symmetry; apply Zfloor_eq; simpl; lra).
    reflexivity.
  - rewrite (sampleSizeEstimate_valid _ _ _ _ (sampleEstimate_half_one _)) by lra.
    rewrite roundToSigFigs_small by lra. reflexivity.
Qed.

(** C3: baseline 1, effect -1/2, significance 0.95.  The first candidate
    is NaN (its variance is negative), the comparison with NaN is false, and
    the second candidate [1.9 * ln 2] is selected: the result is the
    positive number 1.  With the effect 1/2 instead, the NaN is the second
    candidate and the result is null. *)
Theorem sampleSizeEstimate_baseline_one :
  sampleEstimate1 (intermediates (Fin 1) (Fin (-1 / 2)) (Fin (95 / 100))) = NaN /\
  sampleSizeEstimate (Fin 1) (Fin (-1 / 2)) (Fin (95 / 100)) = Some (Fin 1) /\
  sampleSizeEstimate (Fin 1) (Fin (1 / 2)) (Fin (95 / 100)) = None.
Proof.
  pose proof ln2_bounds as Hl.
  destruct (sampleEstimate_one_minus_half (95 / 100)) as [E1 E].
  repeat split.
  - exact E1.
  - rewrite (sampleSizeEstimate_valid _ _ _ _ E) by lra.
    rewrite roundToSigFigs_one by lra. reflexivity.
  - apply sampleSizeEstimate_not_finite.
    rewrite sampleEstimate_one_plus_half. reflexivity.
Qed.

(** C4: for every baseline in (0,1) and every significance level, finite
    or not, a relative effect of zero gives null. *)
Theorem sampleSizeEstimate_zero_effect (c : R) (s : number) :
  0 < c < 1 -> sampleSizeEstimate (Fin c) (Fin 0) s = None.
Proof.
  intros Hc. apply sampleSizeEstimate_not_finite.
  unfold intermediates, sampleEstimate.
  cbn [mul Math.abs].
  replace (Rabs (c * 0)) with 0 by (rewrite Rmult_0_r, Rabs_R0; reflexivity).
  cbn [sub neg add mul].
  assert (H1 : 0 < c * (1 + - c) + (c + - (c * 0)) * (1 + - (c + - (c * 0)))) by nra.
  assert (H2 : 0 < c * (1 + - c) + (c + c * 0) * (1 + - (c + c * 0))) by nra.
  destruct (ge _ _); apply candidate_theta_zero; assumption.
Qed.

Lemma sampleSizeEstimate_zero_effect_witness :
  sampleSizeEstimate (Fin (1 / 2)) (Fin 0) (Fin (95 / 100)) = None.
Proof. apply sampleSizeEstimate_zero_effect. lra. Defined.

(** C5: baseline 1/5, effect 7/2, significance 0.95.  The first candidate
    is NaN, so the maximum of the two absolute values is NaN, yet the
    second candidate, a positive number, is selected and the result is not
    null. *)
Theorem sampleEstimate_not_the_maximum :
  let i := intermediates (Fin (1 / 5)) (Fin (7 / 2)) (Fin (95 / 100)) in
  sampleEstimate1 i = NaN /\
  (exists x : R, 0 < x /\ sampleEstimate2 i = Fin x /\ sampleEstimate i = Fin x) /\
  Math.max (Math.abs (sampleEstimate1 i)) (Math.abs (sampleEstimate2 i)) = NaN /\
  sampleEstimate i <>
    Math.max (Math.abs (sampleEstimate1 i)) (Math.abs (sampleEstimate2 i)) /\
  sampleSizeEstimate (Fin (1 / 5)) (Fin (7 / 2)) (Fin (95 / 100)) <> None.
Proof.
  cbv zeta.
  assert (E1 : sampleEstimate1 (intermediates (Fin (1 / 5)) (Fin (7 / 2)) (Fin (95 / 100))) = NaN).
  { rewrite sampleEstimate1_Fin. apply candidate_neg. unfold shiftedVariance. lra. }
  assert (Hv : shiftedVariance (1 / 5) (1 / 5 * (7 / 2)) = 1 / 4)
    by (unfold shiftedVariance; lra).
  assert (Ht : Rabs (1 / 5 * (7 / 2)) = 7 / 10) by (rewrite Rabs_right; lra).
  set (x := estimateValue (95 / 100) (1 / 4) (7 / 10)).
  assert (Hx : 0 < x).
  { unfold x, estimateValue. rewrite sqrt_quarter.
    assert (0 < ln (1 + 1 / 2 / (7 / 10))).
    { rewrite <- ln_1. apply ln_increasing; lra. }
    apply Rmult_lt_0_compat; [nra|]. apply Rinv_0_lt_compat. lra. }
  assert (E2 : sampleEstimate2 (intermediates (Fin (1 / 5)) (Fin (7 / 2)) (Fin (95 / 100))) = Fin x).
  { rewrite sampleEstimate2_Fin, Hv, Ht. apply candidate_Fin; lra. }
  assert (E : sampleEstimate (intermediates (Fin (1 / 5)) (Fin (7 / 2)) (Fin (95 / 100))) = Fin x).
  { rewrite sampleEstimate_Fin. cbv zeta.
    rewrite candidate_neg by (unfold shiftedVariance; lra).
    cbn [Math.abs]. rewrite ge_NaN_l, Hv, Ht. apply candidate_Fin; lra. }
  rewrite E1, E2, E. cbn [Math.abs Math.max].
  split; [reflexivity|].
  split; [exists x; split; [exact Hx | split; reflexivity]|].
  split; [reflexivity|].
  split; [discriminate|].
  rewrite (sampleSizeEstimate_valid _ _ _ _ E) by lra. discriminate.
Qed.








(** C7: an invalid input is not always answered with null.  With the
    baseline 1 (outside (0,1)), effect -1/2 and significance 1/2, the first
    candidate is NaN, the second is [ln 2] and the call returns the number
    1; with a significance of 0 the estimate is 0, which passes the
    validation, and the call returns NaN. *)
Theorem sampleSizeEstimate_invalid_input_not_null :
  sampleEstimate1 (intermediates (Fin 1) (Fin (-1 / 2)) (Fin (1 / 2))) = NaN /\
  sampleSizeEstimate (Fin 1) (Fin (-1 / 2)) (Fin (1 / 2)) = Some (Fin 1) /\
  sampleEstimate (intermediates (Fin (1 / 2)) (Fin 1) (Fin 0)) = Fin (2 * 0 * ln 2) /\
  sampleSizeEstimate (Fin (1 / 2)) (Fin 1) (Fin 0) = Some NaN.
Proof.
  pose proof ln2_bounds as Hl.
  destruct (sampleEstimate_one_minus_half (1 / 2)) as [E1 E].
  split; [exact E1|]. split; [|split].
  - rewrite (sampleSizeEstimate_valid _ _ _ _ E) by lra.
    rewrite roundToSigFigs_one by lra. reflexivity.
  - apply sampleEstimate_half_one.
  - rewrite (sampleSizeEstimate_valid _ _ _ _ (sampleEstimate_half_one _)) by lra.
    rewrite roundToSigFigs_small by lra. reflexivity.
Qed.

(** C10 as worded fails: the empty string is none of the three frequency
    names, but the handler replaces it by the default 'monthly'; with
    baseline 1/2, effect 1 and significance 95 the sample size is 1, the
    daily visitor count is 333 and the days to run are finite. *)
Lemma empty_frequency_is_monthly :
  let p :=
    {| OpalToolFunction.baselineRate := Some (Fin (1 / 2));
       OpalToolFunction.mde := Some (Fin 1);
       OpalToolFunction.significance := Some (Fin 95);
       OpalToolFunction.variants := None;
       OpalToolFunction.visitors := None;
       OpalToolFunction.frequency := Some EmptyString |} in
  OpalToolFunction.knownFrequency EmptyString = false /\
  OpalToolFunction.sampleSizeOf p = Some (Fin 1) /\
  exists d,
    OpalToolFunction.calculateSampleSize "1.0.0" p = OpalToolFunction.Success d /\
    OpalToolFunction.visitorsCountDays d = Fin 333 /\
    OpalToolFunction.visitorsCountDays d <> Fin 0 /\
    isFinite (OpalToolFunction.daysToRun d) = true.
Proof.
  cbv zeta. split; [reflexivity|].
  split; [apply sampleSizeOf_half_one_95|].
  pose proof (sampleSizeOf_half_one_95 None None (Some EmptyString)) as Hn.
  unfold OpalToolFunction.sampleSizeOf in Hn.
  unfold OpalToolFunction.calculateSampleSize.
  cbn [OpalToolFunction.baselineRate OpalToolFunction.mde
       OpalToolFunction.significance OpalToolFunction.variants
       OpalToolFunction.visitors OpalToolFunction.frequency] in Hn |- *.
  rewrite Hn.
  eexists. split; [reflexivity|].
  cbn [OpalToolFunction.visitorsCountDays OpalToolFunction.daysToRun
       OpalToolFunction.num_or OpalToolFunction.str_or].
  assert (Ed : Math.round (div (Fin 10000) (Fin 30)) = Fin 333).
  { rewrite div_Fin by lra. unfold Math.round.
    replace (Zfloor (10000 / 30 + / 2)) with 333%Z
      by (symmetry; apply Zfloor_eq; simpl; lra).
    reflexivity. }
  match goal with
  | |- ?a = _ /\ _ => change a with (Math.round (div (Fin 10000) (Fin 30)))
  end.
  rewrite Ed.
  split; [reflexivity|].
  split; [intros H; apply Fin_inj in H; lra|].
  rewrite isFinite_round.
  change (String.eqb (OpalToolFunction.toLowerCase "monthly") "monthly")
    with true.
  cbv iota.
  unfold gt, lt. rewrite Rltb_false by lra.
  cbn [mul]. rewrite !div_Fin by lra. reflexivity.
Qed.

(** C10, amended: when the frequency parameter is present, not empty and
    none of 'monthly', 'weekly', 'daily' (compared in lower case), and the
    numeric inputs yield a sample size, the handler reports success, the
    daily visitor count stays 0, and the days, weeks and months to run are
    not finite. *)
Theorem unknown_frequency_non_finite_durations
    (appVersion f : string)
    (p : OpalToolFunction.SampleSizeCalculatorParameters) (n : number) :
  OpalToolFunction.frequency p = Some f ->
  f <> EmptyString ->
  OpalToolFunction.knownFrequency f = false ->
  OpalToolFunction.sampleSizeOf p = Some n ->
  exists d,
    OpalToolFunction.calculateSampleSize appVersion p = OpalToolFunction.Success d /\
    OpalToolFunction.visitorsCountDays d = Fin 0 /\
    isFinite (OpalToolFunction.daysToRun d) = false /\
    isFinite (OpalToolFunction.weeksToRun d) = false /\
    isFinite (OpalToolFunction.monthsToRun d) = false.
Proof.
  intros Hf Hne Hk Hn.
  unfold OpalToolFunction.sampleSizeOf in Hn.
  unfold OpalToolFunction.calculateSampleSize.
  rewrite Hn, Hf, str_or_nonempty by exact Hne.
  unfold OpalToolFunction.knownFrequency in Hk.
  apply orb_false_elim in Hk. destruct Hk as [Hk Hd].
  apply orb_false_elim in Hk. destruct Hk as [Hm Hw].
  rewrite Hm, Hw, Hd.
  eexists. split; [reflexivity|].
  cbn [OpalToolFunction.visitorsCountDays OpalToolFunction.daysToRun
       OpalToolFunction.weeksToRun OpalToolFunction.monthsToRun].
  assert (Hv : OpalToolFunction.truthy
                 (OpalToolFunction.num_or (OpalToolFunction.variants p) (Fin 2))).
  { apply num_or_truthy. cbn. lra. }
  rewrite (div_zero_truthy _ Hv).
  rewrite !isFinite_round.
  split.
  - unfold Math.round.
    replace (Zfloor (0 + / 2)) with 0%Z
      by (symmetry; apply Zfloor_eq; simpl; lra).
    reflexivity.
  - split; [apply div_by_zero_not_finite|].
    split; apply div_not_finite; apply div_by_zero_not_finite.
Qed.

Lemma unknown_frequency_non_finite_durations_witness :
  exists d,
    OpalToolFunction.calculateSampleSize "1.0.0"
      {| OpalToolFunction.baselineRate := Some (Fin (1 / 2));
         OpalToolFunction.mde := Some (Fin 1);
         OpalToolFunction.significance := Some (Fin 95);
         OpalToolFunction.variants := None;
         OpalToolFunction.visitors := None;
         OpalToolFunction.frequency := Some "hourly"%string |}
      = OpalToolFunction.Success d /\
    OpalToolFunction.visitorsCountDays d = Fin 0 /\
    isFinite (OpalToolFunction.daysToRun d) = false /\
    isFinite (OpalToolFunction.weeksToRun d) = false /\
    isFinite (OpalToolFunction.monthsToRun d) = false.
Proof.
  apply (unknown_frequency_non_finite_durations "1.0.0" "hourly" _ (Fin 1)).
  - reflexivity.
  - discriminate.
  - reflexivity.
  - apply sampleSizeOf_half_one_95.
Defined.

(** * Further properties of the rounding step *)

Lemma sigFigs2_two_digits (s : Z) :
  (1 <= s)%Z ->
  exists q k : Z, (1 <= q <= 99)%Z /\ (0 <= k)%Z /\ sigFigs 2 s = (q * 10 ^ k)%Z.
Proof.
  intros Hs. destruct (ilog10_spec s Hs) as [H0 [Hlo Hhi]].
  destruct (sigFigs2_cases s Hs)
    as [[Hd E]|[Hd (p & q & Ep & Hp & E10 & E100 & _ & Hq & E)]].
  - exists s, 0%Z. rewrite E.
    assert (10 ^ (ilog10 s + 1) <= 10 ^ 2)%Z by (apply Z.pow_le_mono_r; lia).
    change (10 ^ 2)%Z with 100%Z in H.
    repeat split; try lia.
  - destruct (Z.eq_dec q 100) as [Hq100|Hq100].
    + exists 10%Z, (ilog10 s). rewrite E, Hq100, E10.
      repeat split; lia.
    + exists q, (ilog10 s - 1)%Z. rewrite E, Ep.
      repeat split; lia.
Qed.

Lemma sigFigs2_error (s : Z) :
  (1 <= s)%Z -> (20 * Z.abs (sigFigs 2 s - s) <= s)%Z.
Proof.
  intros Hs. destruct (ilog10_spec s Hs) as [H0 [Hlo Hhi]].
  destruct (sigFigs2_cases s Hs)
    as [[Hd E]|[Hd (p & q & Ep & Hp & E10 & E100 & Eq & Hq & E)]].
  - rewrite E. replace (s - s)%Z with 0%Z by lia. simpl. lia.
  - rewrite E. unfold roundHalfUpDiv in Eq.
    pose proof (Z.mul_div_le (2 * s + p) (2 * p) ltac:(lia)) as Hle.
    pose proof (Z.mul_succ_div_gt (2 * s + p) (2 * p) ltac:(lia)) as Hgt.
    rewrite <- Eq in Hle, Hgt.
    rewrite E10 in Hlo. lia.
Qed.

(** The statements below about large values carry the bound [10 ^ 15]:
    up to there every whole number is a double and the quotient by the
    scale factor is the exact one, so the program's double arithmetic
    gives what the exact arithmetic of the model gives.  Beyond 2^53 the
    doubles are no longer the whole numbers and near 1.8e308 the quotient
    overflows. *)

(** X1: for an argument between one half and 10^15 the result is a whole
    number with at most two significant decimal digits: [q * 10^k] with
    [1 <= q <= 99]. *)
Theorem roundToSigFigs_two_digits (x : R) :
  / 2 <= x <= 10 ^ 15 ->
  exists q k : Z,
    (1 <= q <= 99)%Z /\ (0 <= k)%Z /\
    roundToSigFigs (Fin x) = Fin (IZR (q * 10 ^ k)).
Proof.
  intros [Hx _]. rewrite roundToSigFigs_Fin by exact Hx.
  assert (Hs : (1 <= Zfloor (x + / 2))%Z) by (apply Zfloor_lub; simpl; lra).
  destruct (sigFigs2_two_digits _ Hs) as (q & k & Hq & Hk & E).
  exists q, k. rewrite E. repeat split; lia.
Qed.

Lemma roundToSigFigs_two_digits_witness :
  exists q k : Z,
    (1 <= q <= 99)%Z /\ (0 <= k)%Z /\
    roundToSigFigs (Fin 12345) = Fin (IZR (q * 10 ^ k)).
Proof. apply (roundToSigFigs_two_digits 12345). simpl. lra. Defined.

(** X2: the result differs from the argument by at most one twentieth of
    the argument rounded to an integer, plus the half unit of that first
    rounding. *)
Theorem roundToSigFigs_error (x r : R) :
  / 2 <= x -> roundToSigFigs (Fin x) = Fin r ->
  Rabs (r - x) <= (x + / 2) / 20 + / 2.
Proof.
  intros Hx E. rewrite roundToSigFigs_Fin in E by exact Hx.
  apply Fin_inj in E. subst r.
  set (s := Zfloor (x + / 2)).
  assert (Hs : (1 <= s)%Z) by (apply Zfloor_lub; simpl; lra).
  pose proof (Zfloor_bound (x + / 2)) as [Hb1 Hb2]. fold s in Hb1, Hb2.
  pose proof (sigFigs2_error s Hs) as He.
  apply IZR_le in He. rewrite mult_IZR, abs_IZR, minus_IZR in He.
  assert (Ha : Rabs (IZR (sigFigs 2 s) - IZR s) <= IZR s / 20) by lra.
  unfold Rabs in Ha |- *.
  destruct (Rcase_abs (IZR (sigFigs 2 s) - IZR s));
    destruct (Rcase_abs (IZR (sigFigs 2 s) - x)); lra.
Qed.

Lemma roundToSigFigs_error_witness :
  Rabs (12000 - 12345) <= (12345 + / 2) / 20 + / 2.
Proof.
  apply (roundToSigFigs_error 12345 12000); [lra | exact roundToSigFigs_12345].
Defined.

(** X3: up to 10^15 the rounding step is monotone: a larger argument
    never gives a smaller result. *)
Theorem roundToSigFigs_monotone (x y rx ry : R) :
  x <= y -> y <= 10 ^ 15 ->
  roundToSigFigs (Fin x) = Fin rx -> roundToSigFigs (Fin y) = Fin ry ->
  rx <= ry.
Proof.
  intros Hxy _ Ex Ey.
  destruct (Rlt_le_dec x (/ 2)) as [Hsmall|Hx].
  { rewrite roundToSigFigs_small in Ex by exact Hsmall. discriminate Ex. }
  rewrite roundToSigFigs_Fin in Ex by exact Hx.
  rewrite roundToSigFigs_Fin in Ey by lra.
  apply Fin_inj in Ex. apply Fin_inj in Ey. subst rx ry.
  apply IZR_le. apply sigFigs2_mono. split.
  - apply Zfloor_lub. simpl. lra.
  - apply Zfloor_le. lra.
Qed.

Lemma roundToSigFigs_monotone_witness : 87 <= 12000.
Proof.
  apply (roundToSigFigs_monotone 87 12345 87 12000).
  - lra.
  - simpl. lra.
  - rewrite roundToSigFigs_integer by lia. reflexivity.
  - exact roundToSigFigs_12345.
Defined.

(** X4: among the numbers that are not above 10^15, the result is a
    finite number exactly for the finite arguments of at least one half;
    for every other one, NaN and the infinities included, it is NaN. *)
Theorem roundToSigFigs_finite_or_NaN (n : number) :
  match n with Fin x => x <= 10 ^ 15 | NaN | PInf | NInf => True end ->
  match n with
  | Fin x =>
      if Rltb x (/ 2) then roundToSigFigs n = NaN
      else isFinite (roundToSigFigs n) = true
  | NaN | PInf | NInf => roundToSigFigs n = NaN
  end.
Proof.
  intros _.
  pose proof ln10_pos as Hl.
  destruct n as [| | |x].
  - reflexivity.
  - unfold roundToSigFigs. cbv zeta. cbn [Math.round Math.log].
    unfold Math.LN10, div. rdec.
    cbn. unfold inf_times. rdec. reflexivity.
  - reflexivity.
  - unfold Rltb. destruct (Rlt_dec x (/ 2)) as [Hsmall|Hx].
    + apply roundToSigFigs_small. exact Hsmall.
    + rewrite roundToSigFigs_Fin by lra. reflexivity.
Qed.

Lemma roundToSigFigs_finite_or_NaN_witness :
  (if Rltb 12345 (/ 2) then roundToSigFigs (Fin 12345) = NaN
   else isFinite (roundToSigFigs (Fin 12345)) = true) /\
  roundToSigFigs (Fin (3 / 10)) = NaN /\
  roundToSigFigs PInf = NaN.
Proof.
  split; [|split].
  - apply (roundToSigFigs_finite_or_NaN (Fin 12345)). simpl. lra.
  - assert (H : if Rltb (3 / 10) (/ 2) then roundToSigFigs (Fin (3 / 10)) = NaN
                else isFinite (roundToSigFigs (Fin (3 / 10))) = true)
      by (apply (roundToSigFigs_finite_or_NaN (Fin (3 / 10))); simpl; lra).
    rewrite Rltb_true in H by lra. exact H.
  - apply (roundToSigFigs_finite_or_NaN PInf). exact I.
Defined.

(** X20: up to 10^15 the rounding step is idempotent: rounding the result
    for an argument between one half and 10^15 again returns it
    unchanged. *)
Theorem roundToSigFigs_idempotent_to_1e15 (x : R) (y : number) :
  / 2 <= x <= 10 ^ 15 ->
  roundToSigFigs (Fin x) = y -> roundToSigFigs y = y.
Proof.
  intros [Hx _] E. rewrite roundToSigFigs_Fin in E by exact Hx. subst y.
  assert (Hs : (1 <= Zfloor (x + / 2))%Z) by (apply Zfloor_lub; simpl; lra).
  pose proof (sigFigs2_pos _ Hs) as Hp.
  rewrite roundToSigFigs_integer by exact Hp.
  rewrite sigFigs2_idempotent by exact Hs. reflexivity.
Qed.

Lemma roundToSigFigs_idempotent_to_1e15_witness :
  roundToSigFigs (Fin 12000) = Fin 12000.
Proof.
  apply (roundToSigFigs_idempotent_to_1e15 12345 (Fin 12000)).
  - simpl. lra.
  - exact roundToSigFigs_12345.
Defined.

(** * Further properties of [sampleSizeEstimate] *)

Lemma sampleEstimate_eq (c e s : number) :
  sampleEstimate (intermediates c e s) =
  if ge (Math.abs (sampleEstimate1 (intermediates c e s)))
        (Math.abs (sampleEstimate2 (intermediates c e s)))
  then sampleEstimate1 (intermediates c e s)
  else sampleEstimate2 (intermediates c e s).
Proof. reflexivity. Qed.

Lemma sampleEstimate1_eq (c e s : number) :
  sampleEstimate1 (intermediates c e s) =
  candidate (sub (Fin 1) (sub (Fin 1) s)) (variance1 (intermediates c e s))
    (theta (intermediates c e s)).
Proof. reflexivity. Qed.

Lemma sampleEstimate2_eq (c e s : number) :
  sampleEstimate2 (intermediates c e s) =
  candidate (sub (Fin 1) (sub (Fin 1) s)) (variance2 (intermediates c e s))
    (theta (intermediates c e s)).
Proof. reflexivity. Qed.

Lemma variance1_Fin (c e : R) (s : number) :
  variance1 (intermediates (Fin c) (Fin e) s) =
  Fin (shiftedVariance c (- (c * e))).
Proof.
  unfold intermediates, variance1. cbn [sub neg add mul].
  apply f_equal. unfold shiftedVariance. ring.
Qed.

Lemma variance2_Fin (c e : R) (s : number) :
  variance2 (intermediates (Fin c) (Fin e) s) =
  Fin (shiftedVariance c (c * e)).
Proof.
  unfold intermediates, variance2. cbn [sub neg add mul].
  apply f_equal. unfold shiftedVariance. ring.
Qed.

Lemma theta_Fin (c e : R) (s : number) :
  theta (intermediates (Fin c) (Fin e) s) = Fin (Rabs (c * e)).
Proof. reflexivity. Qed.

Lemma candidate_theta_zero_any (confidence : number) (v : R) :
  isFinite (candidate confidence (Fin v) (Fin 0)) = false.
Proof.
  destruct (Rlt_le_dec v 0) as [Hneg|Hpos].
  - rewrite candidate_neg by exact Hneg. reflexivity.
  - destruct (Req_dec v 0) as [E|E].
    + subst v. unfold candidate.
      rewrite sqrt_Fin by lra. rewrite sqrt_0, div_Fin_zero.
      rewrite Reqb_true by reflexivity.
      cbn [add Math.log]. rewrite mul_NaN_r. reflexivity.
    + apply candidate_theta_zero. lra.
Qed.

Lemma sampleSizeEstimate_theta_zero (c e : R) (s : number) :
  c * e = 0 -> sampleSizeEstimate (Fin c) (Fin e) s = None.
Proof.
  intros Hz. apply sampleSizeEstimate_not_finite.
  rewrite sampleEstimate_eq, sampleEstimate1_eq, sampleEstimate2_eq.
  rewrite variance1_Fin, variance2_Fin, theta_Fin.
  rewrite Hz, Rabs_R0.
  destruct (ge _ _); apply candidate_theta_zero_any.
Qed.

Lemma estimateValue_scale (sd v th : R) :
  0 < th -> estimateValue sd v th = sd * estimateValue 1 v th.
Proof. intros Ht. unfold estimateValue. field. lra. Qed.

(** The choice between two estimates with a common confidence factor does
    not depend on their order. *)
Lemma selection_symmetric (sd h1 h2 : R) :
  0 <= h1 -> 0 <= h2 ->
  (if ge (Math.abs (Fin (sd * h1))) (Math.abs (Fin (sd * h2)))
   then Fin (sd * h1) else Fin (sd * h2)) =
  (if ge (Math.abs (Fin (sd * h2))) (Math.abs (Fin (sd * h1)))
   then Fin (sd * h2) else Fin (sd * h1)).
Proof.
  intros H1 H2. cbn [Math.abs ge lt]. unfold Rltb.
  rewrite !Rabs_mult, (Rabs_right h1), (Rabs_right h2) by lra.
  pose proof (Rabs_pos sd) as Hs.
  destruct (Rlt_dec (Rabs sd * h1) (Rabs sd * h2)) as [Ha|Ha];
    destruct (Rlt_dec (Rabs sd * h2) (Rabs sd * h1)) as [Hb|Hb];
    cbn [negb]; try reflexivity; try lra.
  assert (E : Rabs sd * h1 = Rabs sd * h2) by lra.
  f_equal. destruct (Req_dec sd 0) as [-> | Hsd]; [ring|].
  assert (0 < Rabs sd) by (apply Rabs_pos_lt; exact Hsd).
  assert (h1 = h2) by (apply Rmult_eq_reg_l with (Rabs sd); lra).
  subst h2. reflexivity.
Qed.

Lemma lt_Fin_false (x : R) : lt (Fin x) (Fin 0) = false -> 0 <= x.
Proof.
  cbn [lt]. unfold Rltb. destruct (Rlt_dec x 0); [discriminate | lra].
Qed.

(** X5: a finite result of at most 10^15 is a positive whole number with
    at most two significant decimal digits, whatever the three arguments. *)
Theorem sampleSizeEstimate_result_shape (c e s : number) (r : R) :
  sampleSizeEstimate c e s = Some (Fin r) ->
  r <= 10 ^ 15 ->
  exists q k : Z,
    (1 <= q <= 99)%Z /\ (0 <= k)%Z /\ r = IZR (q * 10 ^ k).
Proof.
  intros H _.
  destruct (sampleEstimate (intermediates c e s)) as [| | |x] eqn:E;
    try (rewrite sampleSizeEstimate_not_finite in H
           by (rewrite E; reflexivity); discriminate H).
  destruct (Rlt_le_dec x 0) as [Hneg|Hpos].
  { rewrite (sampleSizeEstimate_negative _ _ _ _ E Hneg) in H. discriminate H. }
  rewrite (sampleSizeEstimate_valid _ _ _ _ E Hpos) in H.
  injection H as H.
  destruct (Rlt_le_dec x (/ 2)) as [Hsmall|Hbig].
  - rewrite roundToSigFigs_small in H by exact Hsmall. discriminate H.
  - rewrite roundToSigFigs_Fin in H by exact Hbig.
    apply Fin_inj in H. subst r.
    assert (Hs : (1 <= Zfloor (x + / 2))%Z) by (apply Zfloor_lub; simpl; lra).
    destruct (sigFigs2_two_digits _ Hs) as (q & k & Hq & Hk & Eq).
    exists q, k. rewrite Eq. repeat split; lia.
Qed.

Lemma sampleSizeEstimate_result_shape_witness :
  exists q k : Z,
    (1 <= q <= 99)%Z /\ (0 <= k)%Z /\ 2 = IZR (q * 10 ^ k).
Proof.
  apply (sampleSizeEstimate_result_shape
           (Fin (1 / 2)) (Fin (9 / 10)) (Fin (95 / 100)) 2).
  - exact sampleSizeEstimate_half_nine_tenths_95.
  - simpl. lra.
Defined.

(** X6: when neither variance is negative, the sign of the relative effect
    does not matter: the effects [e] and [-e] give the same result. *)
Theorem sampleSizeEstimate_sign_symmetric (c e sd : R) :
  lt (variance1 (intermediates (Fin c) (Fin e) (Fin sd))) (Fin 0) = false ->
  lt (variance2 (intermediates (Fin c) (Fin e) (Fin sd))) (Fin 0) = false ->
  sampleSizeEstimate (Fin c) (Fin (- e)) (Fin sd) =
  sampleSizeEstimate (Fin c) (Fin e) (Fin sd).
Proof.
  rewrite variance1_Fin, variance2_Fin. intros H1 H2.
  apply lt_Fin_false in H1. apply lt_Fin_false in H2.
  destruct (Req_dec (c * e) 0) as [Hz|Hnz].
  { rewrite !sampleSizeEstimate_theta_zero; [reflexivity | exact Hz | lra]. }
  assert (Hth : 0 < Rabs (c * e)) by (apply Rabs_pos_lt; exact Hnz).
  assert (E : sampleEstimate (intermediates (Fin c) (Fin (- e)) (Fin sd)) =
              sampleEstimate (intermediates (Fin c) (Fin e) (Fin sd))).
  { rewrite !sampleEstimate_Fin. cbv zeta.
    replace (c * - e) with (- (c * e)) by ring.
    rewrite Ropp_involutive, Rabs_Ropp.
    rewrite !candidate_Fin by assumption.
    rewrite (estimateValue_scale sd (shiftedVariance c (c * e))) by exact Hth.
    rewrite (estimateValue_scale sd (shiftedVariance c (- (c * e)))) by exact Hth.
    apply selection_symmetric; apply estimateValue_nonneg; lra. }
  unfold sampleSizeEstimate. cbv zeta. rewrite E. reflexivity.
Qed.

Lemma sampleSizeEstimate_sign_symmetric_witness :
  sampleSizeEstimate (Fin (1 / 2)) (Fin (- (1))) (Fin (95 / 100)) =
  sampleSizeEstimate (Fin (1 / 2)) (Fin 1) (Fin (95 / 100)).
Proof.
  apply (sampleSizeEstimate_sign_symmetric (1 / 2) 1 (95 / 100)).
  - rewrite variance1_Fin. cbn [lt]. apply Rltb_false.
    unfold shiftedVariance. lra.
  - rewrite variance2_Fin. cbn [lt]. apply Rltb_false.
    unfold shiftedVariance. lra.
Defined.

(** X7: a sufficient condition for a result: with a baseline in (0,1), a
    relative effect of magnitude at most 1 that keeps
    [baseline * (1 + |effect|)] at most 1 and the absolute effect
    [baseline * |effect|] at least 10^-6, and a significance between 0 and
    1, the call does not return null.  The lower bound on the absolute
    effect keeps its square, the divisor of the estimate, well inside the
    range of the doubles; the exact arithmetic of the model needs only a
    non-zero effect. *)
Theorem sampleSizeEstimate_not_null (c e sd : R) :
  0 < c < 1 -> / 1000000 <= c * Rabs e -> Rabs e <= 1 ->
  c * (1 + Rabs e) <= 1 -> 0 <= sd <= 1 ->
  sampleSizeEstimate (Fin c) (Fin e) (Fin sd) <> None.
Proof.
  intros Hc Hlow Hle Hup [Hsd _].
  assert (He : e <> 0).
  { intros ->. rewrite Rabs_R0 in Hlow. lra. }
  assert (Hce : c * e <> 0) by (apply Rmult_integral_contrapositive; split; lra).
  assert (Hth : 0 < Rabs (c * e)) by (apply Rabs_pos_lt; exact Hce).
  assert (Hm : - (c * Rabs e) <= c * e <= c * Rabs e).
  { unfold Rabs. destruct (Rcase_abs e); nra. }
  assert (Hcm : 0 <= c * Rabs e <= c) by (pose proof (Rabs_pos e); nra).
  assert (Hv : forall m, - (c * Rabs e) <= m <= c * Rabs e ->
                         0 <= shiftedVariance c m).
  { intros m Hb. unfold shiftedVariance.
    assert (0 <= c * (1 - c)) by nra.
    assert (0 <= (c + m) * (1 - (c + m))) by (apply Rmult_le_pos; nra).
    lra. }
  assert (E : exists x, 0 <= x /\
                sampleEstimate (intermediates (Fin c) (Fin e) (Fin sd)) = Fin x).
  { rewrite sampleEstimate_Fin. cbv zeta.
    rewrite !candidate_Fin by (try exact Hth; apply Hv; lra).
    destruct (ge _ _); eexists; (split; [|reflexivity]);
      apply estimateValue_nonneg; try lra; apply Hv; lra. }
  destruct E as (x & Hx & E).
  rewrite (sampleSizeEstimate_valid _ _ _ _ E Hx). discriminate.
Qed.

Lemma sampleSizeEstimate_not_null_witness :
  sampleSizeEstimate (Fin (3 / 100)) (Fin (2 / 10)) (Fin (95 / 100)) <> None.
Proof.
  apply (sampleSizeEstimate_not_null (3 / 100) (2 / 10) (95 / 100)).
  - lra.
  - rewrite Rabs_right; lra.
  - rewrite Rabs_right; lra.
  - rewrite Rabs_right; lra.
  - lra.
Defined.

(** X8: a significance that is zero or negative never gives a finite
    number, whatever the baseline and the effect. *)
Theorem sampleSizeEstimate_needs_positive_significance (c e sd r : R) :
  sd <= 0 -> sampleSizeEstimate (Fin c) (Fin e) (Fin sd) <> Some (Fin r).
Proof.
  intros Hsd H.
  destruct (Req_dec (c * e) 0) as [Hz|Hnz].
  { rewrite sampleSizeEstimate_theta_zero in H by exact Hz. discriminate H. }
  assert (Hth : 0 < Rabs (c * e)) by (apply Rabs_pos_lt; exact Hnz).
  destruct (sampleSizeEstimate_Fin_inv _ _ _ _ Hnz H)
    as (x & m & Hx & _ & _ & Hv & Ex & _).
  assert (Hn : 0 <= estimateValue (- sd) (shiftedVariance c m) (Rabs (c * e)))
    by (apply estimateValue_nonneg; lra).
  assert (En : estimateValue (- sd) (shiftedVariance c m) (Rabs (c * e)) = - x).
  { rewrite Ex. unfold estimateValue. field. lra. }
  lra.
Qed.

Lemma sampleSizeEstimate_needs_positive_significance_witness :
  sampleSizeEstimate (Fin (1 / 2)) (Fin 1) (Fin 0) <> Some (Fin 1).
Proof.
  apply (sampleSizeEstimate_needs_positive_significance (1 / 2) 1 0 1). lra.
Defined.

(** X9: when the absolute effect [baseline * effect] is zero (a zero
    baseline with any effect, or a zero effect with any finite baseline),
    theta is zero and the result is null for every significance. *)
Theorem sampleSizeEstimate_zero_absolute_effect (c e : R) (s : number) :
  c * e = 0 -> sampleSizeEstimate (Fin c) (Fin e) s = None.
Proof. exact (sampleSizeEstimate_theta_zero c e s). Qed.

Lemma sampleSizeEstimate_zero_absolute_effect_witness :
  sampleSizeEstimate (Fin 0) (Fin (2 / 10)) (Fin (95 / 100)) = None.
Proof.
  apply (sampleSizeEstimate_zero_absolute_effect 0 (2 / 10)). lra.
Defined.

(** ** Arguments that are not finite *)

Lemma mul_not_finite_l (a b : number) :
  isFinite a = false -> isFinite (mul a b) = false.
Proof.
  destruct a, b; intros H; try discriminate H; cbn; try reflexivity;
    unfold inf_times; destruct (Reqb _ 0); try reflexivity;
    destruct (Rltb 0 _); reflexivity.
Qed.

Lemma mul_not_finite_r (a b : number) :
  isFinite b = false -> isFinite (mul a b) = false.
Proof.
  destruct a, b; intros H; try discriminate H; cbn; try reflexivity;
    unfold inf_times; destruct (Reqb _ 0); try reflexivity;
    destruct (Rltb 0 _); reflexivity.
Qed.

Lemma candidate_not_finite_confidence (confidence v : number) (th : R) :
  isFinite confidence = false ->
  isFinite (candidate confidence v (Fin th)) = false.
Proof.
  intros H. unfold candidate.
  change (mul (Fin th) (Fin th)) with (Fin (th * th)).
  apply div_not_finite.
  apply mul_not_finite_l. apply mul_not_finite_l.
  apply mul_not_finite_r. exact H.
Qed.

Lemma candidate_bad_variance (confidence v th : number) :
  v = NaN \/ v = NInf -> candidate confidence v th = NaN.
Proof.
  intros [-> | ->]; unfold candidate; cbn [Math.sqrt];
    rewrite div_NaN_l; cbn [add Math.log];
    rewrite mul_NaN_r; apply div_NaN_l.
Qed.

(** With a baseline or an effect that is not finite, the second variance
    is NaN or minus infinity. *)
Lemma variance2_not_finite (c e s : number) :
  isFinite c && isFinite e = false ->
  variance2 (intermediates c e s) = NaN \/
  variance2 (intermediates c e s) = NInf.
Proof.
  unfold intermediates, variance2.
  destruct c as [| | |x], e as [| | |y]; intros H; try discriminate H;
    cbn; unfold inf_times;
    repeat match goal with
    | |- context [Reqb ?a ?b] => destruct (Reqb a b); cbn
    | |- context [Rltb ?a ?b] => destruct (Rltb a b); cbn
    end; auto.
Qed.

Lemma confidence_not_finite (s : number) :
  isFinite s = false -> isFinite (sub (Fin 1) (sub (Fin 1) s)) = false.
Proof. destruct s; intros H; try discriminate H; reflexivity. Qed.

(** X10: an argument that is NaN or infinite, in any of the three
    positions, gives null. *)
Theorem sampleSizeEstimate_not_finite_argument (c e s : number) :
  isFinite c && isFinite e && isFinite s = false ->
  sampleSizeEstimate c e s = None.
Proof.
  intros H. apply sampleSizeEstimate_not_finite.
  rewrite sampleEstimate_eq.
  destruct (isFinite c && isFinite e) eqn:Hce.
  - (* baseline and effect are finite, the significance is not *)
    cbn [andb] in H.
    apply andb_prop in Hce. destruct Hce as [Hc He].
    destruct c as [| | |x]; try discriminate Hc.
    destruct e as [| | |y]; try discriminate He.
    rewrite sampleEstimate1_eq, sampleEstimate2_eq, theta_Fin.
    destruct (ge _ _);
      apply candidate_not_finite_confidence, confidence_not_finite; exact H.
  - rewrite (sampleEstimate2_eq c e s).
    rewrite (candidate_bad_variance _ _ _ (variance2_not_finite c e s Hce)).
    cbn [Math.abs]. rewrite ge_NaN_r. reflexivity.
Qed.

Lemma sampleSizeEstimate_not_finite_argument_witness :
  sampleSizeEstimate PInf (Fin (2 / 10)) NaN = None.
Proof.
  apply (sampleSizeEstimate_not_finite_argument PInf (Fin (2 / 10)) NaN).
  reflexivity.
Defined.

(** * Further properties of the tool handler *)

(** Baseline 1/2, effect 1 and significance 95 make the handler succeed,
    whatever the other parameters. *)
Lemma calculateSampleSize_half_one_95_succeeds
    (v n : option number) (f : option string) :
  exists d,
    OpalToolFunction.calculateSampleSize "1.0.0"
      {| OpalToolFunction.baselineRate := Some (Fin (1 / 2));
         OpalToolFunction.mde := Some (Fin 1);
         OpalToolFunction.significance := Some (Fin 95);
         OpalToolFunction.variants := v;
         OpalToolFunction.visitors := n;
         OpalToolFunction.frequency := f |} = OpalToolFunction.Success d.
Proof.
  pose proof (sampleSizeOf_half_one_95 v n f) as Hn.
  unfold OpalToolFunction.sampleSizeOf in Hn.
  unfold OpalToolFunction.calculateSampleSize.
  cbn [OpalToolFunction.baselineRate OpalToolFunction.mde
       OpalToolFunction.significance] in Hn |- *.
  rewrite Hn. eexists. reflexivity.
Qed.

(** X11: the private calculation of the tool class agrees with the
    standalone estimator called with the significance percentage divided by
    100, and the two copies of the rounding step agree. *)
Theorem calculateSampleSizeInternal_agrees
    (pm : OpalToolFunction.processedModels) (n : number) :
  OpalToolFunction.calculateSampleSizeInternal pm =
    sampleSizeEstimate (OpalToolFunction.conversion pm)
      (OpalToolFunction.effect pm)
      (div (OpalToolFunction.pm_significance pm) (Fin 100)) /\
  OpalToolFunction.roundToSigFigs n = roundToSigFigs n /\
  OpalToolFunction.isNumeric n = isNumeric n.
Proof. repeat split. Qed.

(** X12: the handler never works with a missing, zero or NaN parameter:
    the baseline rate, the effect, the significance and the variant count
    it reports back are all truthy, the defaults having been substituted. *)
Theorem calculateSampleSize_parameters_truthy
    (appVersion : string)
    (p : OpalToolFunction.SampleSizeCalculatorParameters)
    (d : OpalToolFunction.ResultData) :
  OpalToolFunction.calculateSampleSize appVersion p = OpalToolFunction.Success d ->
  OpalToolFunction.truthy (OpalToolFunction.r_baselineRate d) /\
  OpalToolFunction.truthy (OpalToolFunction.expectedLift d) /\
  OpalToolFunction.truthy (OpalToolFunction.r_significance d) /\
  OpalToolFunction.truthy (OpalToolFunction.r_variants d).
Proof.
  unfold OpalToolFunction.calculateSampleSize.
  destruct (OpalToolFunction.calculateSampleSizeInternal _); [|discriminate].
  intros H. injection H as H. subst d.
  cbn [OpalToolFunction.r_baselineRate OpalToolFunction.expectedLift
       OpalToolFunction.r_significance OpalToolFunction.r_variants].
  repeat split; apply num_or_truthy; cbn; lra.
Qed.

Lemma calculateSampleSize_parameters_truthy_witness :
  exists d,
    OpalToolFunction.truthy (OpalToolFunction.r_baselineRate d) /\
    OpalToolFunction.truthy (OpalToolFunction.expectedLift d) /\
    OpalToolFunction.truthy (OpalToolFunction.r_significance d) /\
    OpalToolFunction.truthy (OpalToolFunction.r_variants d).
Proof.
  destruct (calculateSampleSize_half_one_95_succeeds (Some (Fin 0)) None None)
    as (d & E).
  exists d.
  exact (calculateSampleSize_parameters_truthy _ _ _ E).
Defined.

(** X13: the durations are ordered: whenever the reported days to run are
    a finite number that is not negative, the weeks and the months to run
    are finite too, and months <= weeks <= days. *)
Theorem calculateSampleSize_durations_ordered
    (appVersion : string)
    (p : OpalToolFunction.SampleSizeCalculatorParameters)
    (d : OpalToolFunction.ResultData) (a : R) :
  OpalToolFunction.calculateSampleSize appVersion p = OpalToolFunction.Success d ->
  OpalToolFunction.daysToRun d = Fin a -> 0 <= a ->
  exists w m : R,
    OpalToolFunction.weeksToRun d = Fin w /\
    OpalToolFunction.monthsToRun d = Fin m /\
    0 <= m /\ m <= w /\ w <= a.
Proof.
  unfold OpalToolFunction.calculateSampleSize.
  destruct (OpalToolFunction.calculateSampleSizeInternal _); [|discriminate].
  intros H. injection H as H. subst d.
  cbn [OpalToolFunction.daysToRun OpalToolFunction.weeksToRun
       OpalToolFunction.monthsToRun].
  match goal with
  | |- Math.round ?D = _ -> _ => destruct D as [| | |y]
  end; try discriminate.
  intros Ha Hpos. cbn [Math.round] in Ha. apply Fin_inj in Ha. subst a.
  rewrite !div_Fin by lra. cbn [Math.round].
  assert (Hy : - / 2 <= y).
  { pose proof (Zfloor_bound (y + / 2)) as [Hb _]. lra. }
  eexists. eexists. split; [reflexivity|]. split; [reflexivity|].
  split; [apply IZR_le, Zfloor_lub; simpl; lra|].
  destruct (Rle_lt_dec 0 y) as [Hy0|Hy0].
  - split; apply IZR_le, Zfloor_le; lra.
  - rewrite (Zfloor_eq 0 (y / 30 + / 2)) by (simpl; lra).
    rewrite (Zfloor_eq 0 (y / 7 + / 2)) by (simpl; lra).
    rewrite (Zfloor_eq 0 (y + / 2)) by (simpl; lra).
    lra.
Qed.

(** Baseline 1/2, effect 1, significance 95, and the defaults for the
    rest: one sample per variant, 333 visitors a day, no day to run. *)
Lemma calculateSampleSize_half_one_95_defaults :
  exists d,
    OpalToolFunction.calculateSampleSize "1.0.0"
      {| OpalToolFunction.baselineRate := Some (Fin (1 / 2));
         OpalToolFunction.mde := Some (Fin 1);
         OpalToolFunction.significance := Some (Fin 95);
         OpalToolFunction.variants := None;
         OpalToolFunction.visitors := None;
         OpalToolFunction.frequency := None |} = OpalToolFunction.Success d /\
    OpalToolFunction.daysToRun d = Fin 0.
Proof.
  pose proof (sampleSizeOf_half_one_95 None None None) as Hn.
  unfold OpalToolFunction.sampleSizeOf in Hn.
  unfold OpalToolFunction.calculateSampleSize.
  cbn [OpalToolFunction.baselineRate OpalToolFunction.mde
       OpalToolFunction.significance OpalToolFunction.variants
       OpalToolFunction.visitors OpalToolFunction.frequency] in Hn |- *.
  rewrite Hn.
  eexists. split; [reflexivity|].
  cbn [OpalToolFunction.daysToRun OpalToolFunction.num_or
       OpalToolFunction.str_or].
  change (String.eqb (OpalToolFunction.toLowerCase "monthly") "monthly")
    with true.
  cbv iota.
  unfold gt, lt. rewrite Rltb_false by lra.
  cbn [mul]. rewrite !div_Fin by lra.
  unfold Math.round.
  rewrite (Zfloor_eq 0) by (simpl; lra). reflexivity.
Qed.

Lemma calculateSampleSize_durations_ordered_witness :
  exists (d : OpalToolFunction.ResultData) (w m : R),
    OpalToolFunction.weeksToRun d = Fin w /\
    OpalToolFunction.monthsToRun d = Fin m /\
    0 <= m /\ m <= w /\ w <= 0.
Proof.
  destruct calculateSampleSize_half_one_95_defaults as (d & E & Hd).
  exists d.
  apply (calculateSampleSize_durations_ordered _ _ d 0 E Hd). lra.
Defined.

Lemma Rdiv_neq_0 (a b : R) : a <> 0 -> b <> 0 -> a / b <> 0.
Proof.
  intros Ha Hb. unfold Rdiv. apply Rmult_integral_contrapositive_currified;
    [exact Ha | apply Rinv_neq_0_compat; exact Hb].
Qed.

(** X14: with a recognised frequency (or the default one), a visitor
    count of magnitude between 1 and 10^12, a variant count of magnitude
    between 1 and 10^6 and a finite sample size of magnitude at most
    10^15, the days, weeks and months to run are finite.  The bounds keep
    every product and quotient of the handler below 10^29 and above
    10^-8 in magnitude, inside the range of the doubles; the exact
    arithmetic of the model needs only finite values. *)
Theorem calculateSampleSize_finite_durations
    (appVersion : string)
    (p : OpalToolFunction.SampleSizeCalculatorParameters) (V k n : R) :
  OpalToolFunction.knownFrequency
    (OpalToolFunction.str_or (OpalToolFunction.frequency p) "monthly") = true ->
  OpalToolFunction.num_or (OpalToolFunction.visitors p) (Fin 10000) = Fin V ->
  OpalToolFunction.num_or (OpalToolFunction.variants p) (Fin 2) = Fin k ->
  OpalToolFunction.sampleSizeOf p = Some (Fin n) ->
  1 <= Rabs V <= 10 ^ 12 -> 1 <= Rabs k <= 10 ^ 6 -> Rabs n <= 10 ^ 15 ->
  exists d,
    OpalToolFunction.calculateSampleSize appVersion p = OpalToolFunction.Success d /\
    isFinite (OpalToolFunction.daysToRun d) = true /\
    isFinite (OpalToolFunction.weeksToRun d) = true /\
    isFinite (OpalToolFunction.monthsToRun d) = true.
Proof.
  intros Hf HV Hk Hn _ _ _.
  assert (HV0 : V <> 0).
  { pose proof (num_or_truthy (OpalToolFunction.visitors p) (Fin 10000)) as T.
    rewrite HV in T. apply T. cbn. lra. }
  assert (Hk0 : k <> 0).
  { pose proof (num_or_truthy (OpalToolFunction.variants p) (Fin 2)) as T.
    rewrite Hk in T. apply T. cbn. lra. }
  unfold OpalToolFunction.sampleSizeOf in Hn.
  unfold OpalToolFunction.calculateSampleSize.
  rewrite Hn, HV, Hk.
  eexists. split; [reflexivity|].
  cbn [OpalToolFunction.daysToRun OpalToolFunction.weeksToRun
       OpalToolFunction.monthsToRun].
  rewrite !isFinite_round.
  unfold OpalToolFunction.knownFrequency in Hf.
  assert (Hm : exists m, (if gt (Fin k) (Fin 2) then Fin k else Fin 1) = Fin m).
  { destruct (gt _ _); eexists; reflexivity. }
  destruct Hm as (m & ->). cbn [mul].
  assert (Hd : exists D, D <> 0 /\
     (if String.eqb (OpalToolFunction.toLowerCase
            (OpalToolFunction.str_or (OpalToolFunction.frequency p) "monthly"))
          "monthly"
      then div (Fin V) (Fin 30)
      else if String.eqb (OpalToolFunction.toLowerCase
            (OpalToolFunction.str_or (OpalToolFunction.frequency p) "monthly"))
          "weekly"
      then div (Fin V) (Fin 7)
      else if String.eqb (OpalToolFunction.toLowerCase
            (OpalToolFunction.str_or (OpalToolFunction.frequency p) "monthly"))
          "daily"
      then Fin V else Fin 0) = Fin D).
  { destruct (String.eqb _ "monthly").
    - exists (V / 30). rewrite div_Fin by lra.
      split; [apply Rdiv_neq_0; lra | reflexivity].
    - destruct (String.eqb _ "weekly").
      + exists (V / 7). rewrite div_Fin by lra.
        split; [apply Rdiv_neq_0; lra | reflexivity].
      + destruct (String.eqb _ "daily"); [|discriminate Hf].
        exists V. split; [exact HV0 | reflexivity]. }
  destruct Hd as (D & HD & ->).
  rewrite (div_Fin D k) by exact Hk0.
  assert (HDk : D / k <> 0) by (apply Rdiv_neq_0; assumption).
  rewrite (div_Fin _ (D / k)) by exact HDk.
  rewrite !div_Fin by lra.
  repeat split.
Qed.

Lemma calculateSampleSize_finite_durations_witness :
  exists d,
    OpalToolFunction.calculateSampleSize "1.0.0"
      {| OpalToolFunction.baselineRate := Some (Fin (1 / 2));
         OpalToolFunction.mde := Some (Fin 1);
         OpalToolFunction.significance := Some (Fin 95);
         OpalToolFunction.variants := Some (Fin 3);
         OpalToolFunction.visitors := None;
         OpalToolFunction.frequency := Some "Weekly"%string |}
      = OpalToolFunction.Success d /\
    isFinite (OpalToolFunction.daysToRun d) = true /\
    isFinite (OpalToolFunction.weeksToRun d) = true /\
    isFinite (OpalToolFunction.monthsToRun d) = true.
Proof.
  apply (calculateSampleSize_finite_durations "1.0.0" _ 10000 3 1).
  - reflexivity.
  - reflexivity.
  - apply num_or_Fin. lra.
  - apply sampleSizeOf_half_one_95.
  - rewrite Rabs_right by lra. simpl. lra.
  - rewrite Rabs_right by lra. simpl. lra.
  - rewrite Rabs_right by lra. simpl. lra.
Defined.

(** Decide the tests on the lower-cased literal frequency names. *)
Ltac frequency_tests :=
  repeat match goal with
  | |- context [String.eqb (OpalToolFunction.toLowerCase ?s) ?t] =>
      let b := eval vm_compute in (String.eqb (OpalToolFunction.toLowerCase s) t) in
      change (String.eqb (OpalToolFunction.toLowerCase s) t) with b
  end; cbv iota.

(** X15: the three frequencies are units of one quantity: a weekly count
    of [7 V] visitors and a monthly count of [30 V] visitors give the same
    daily visitors and the same days, weeks and months to run as a daily
    count of [V]. *)
Theorem calculateSampleSize_frequency_units
    (appVersion : string) (b m s k : option number) (V : R)
    (dd : OpalToolFunction.ResultData) :
  V <> 0 ->
  OpalToolFunction.calculateSampleSize appVersion
    {| OpalToolFunction.baselineRate := b; OpalToolFunction.mde := m;
       OpalToolFunction.significance := s; OpalToolFunction.variants := k;
       OpalToolFunction.visitors := Some (Fin V);
       OpalToolFunction.frequency := Some "daily"%string |}
    = OpalToolFunction.Success dd ->
  exists dw dm,
    OpalToolFunction.calculateSampleSize appVersion
      {| OpalToolFunction.baselineRate := b; OpalToolFunction.mde := m;
         OpalToolFunction.significance := s; OpalToolFunction.variants := k;
         OpalToolFunction.visitors := Some (Fin (7 * V));
         OpalToolFunction.frequency := Some "weekly"%string |}
      = OpalToolFunction.Success dw /\
    OpalToolFunction.calculateSampleSize appVersion
      {| OpalToolFunction.baselineRate := b; OpalToolFunction.mde := m;
         OpalToolFunction.significance := s; OpalToolFunction.variants := k;
         OpalToolFunction.visitors := Some (Fin (30 * V));
         OpalToolFunction.frequency := Some "monthly"%string |}
      = OpalToolFunction.Success dm /\
    OpalToolFunction.visitorsCountDays dw = OpalToolFunction.visitorsCountDays dd /\
    OpalToolFunction.visitorsCountDays dm = OpalToolFunction.visitorsCountDays dd /\
    OpalToolFunction.daysToRun dw = OpalToolFunction.daysToRun dd /\
    OpalToolFunction.daysToRun dm = OpalToolFunction.daysToRun dd /\
    OpalToolFunction.weeksToRun dw = OpalToolFunction.weeksToRun dd /\
    OpalToolFunction.weeksToRun dm = OpalToolFunction.weeksToRun dd /\
    OpalToolFunction.monthsToRun dw = OpalToolFunction.monthsToRun dd /\
    OpalToolFunction.monthsToRun dm = OpalToolFunction.monthsToRun dd.
Proof.
  intros HV.
  unfold OpalToolFunction.calculateSampleSize.
  cbn [OpalToolFunction.baselineRate OpalToolFunction.mde
       OpalToolFunction.significance OpalToolFunction.variants
       OpalToolFunction.visitors OpalToolFunction.frequency
       OpalToolFunction.str_or].
  destruct (OpalToolFunction.calculateSampleSizeInternal _); [|discriminate].
  intros H. injection H as H. subst dd.
  eexists. eexists. split; [reflexivity|]. split; [reflexivity|].
  cbn [OpalToolFunction.visitorsCountDays OpalToolFunction.daysToRun
       OpalToolFunction.weeksToRun OpalToolFunction.monthsToRun].
  frequency_tests.
  assert (H7 : 7 * V <> 0) by (intros H; apply HV; lra).
  assert (H30 : 30 * V <> 0) by (intros H; apply HV; lra).
  unfold gt, lt.
  rewrite (num_or_Fin (7 * V)) by exact H7.
  rewrite (num_or_Fin (30 * V)) by exact H30.
  rewrite ?(num_or_Fin V) by exact HV.
  rewrite ?Reqb_false by exact HV.
  rewrite !div_Fin by lra.
  replace (7 * V / 7) with V by field.
  replace (30 * V / 30) with V by field.
  repeat split.
Qed.

Lemma calculateSampleSize_frequency_units_witness :
  exists dd dw dm : OpalToolFunction.ResultData,
    OpalToolFunction.daysToRun dw = OpalToolFunction.daysToRun dd /\
    OpalToolFunction.daysToRun dm = OpalToolFunction.daysToRun dd.
Proof.
  destruct (calculateSampleSize_half_one_95_succeeds
              None (Some (Fin 100)) (Some "daily"%string)) as (dd & E).
  assert (H100 : 100 <> 0) by lra.
  destruct (calculateSampleSize_frequency_units _ _ _ _ _ _ dd H100 E)
    as (dw & dm & _ & _ & _ & _ & Hw & Hm & _).
  exists dd, dw, dm. split; assumption.
Defined.

(** X16: the frequency is read without regard to case: two calls whose
    frequencies differ only in the case of their letters report the same
    sample sizes, daily visitors and durations. *)
Theorem calculateSampleSize_frequency_case
    (appVersion : string) (b m s k v : option number) (f f' : string)
    (d : OpalToolFunction.ResultData) :
  f <> EmptyString -> f' <> EmptyString ->
  OpalToolFunction.toLowerCase f = OpalToolFunction.toLowerCase f' ->
  OpalToolFunction.calculateSampleSize appVersion
    {| OpalToolFunction.baselineRate := b; OpalToolFunction.mde := m;
       OpalToolFunction.significance := s; OpalToolFunction.variants := k;
       OpalToolFunction.visitors := v;
       OpalToolFunction.frequency := Some f |}
    = OpalToolFunction.Success d ->
  exists d',
    OpalToolFunction.calculateSampleSize appVersion
      {| OpalToolFunction.baselineRate := b; OpalToolFunction.mde := m;
         OpalToolFunction.significance := s; OpalToolFunction.variants := k;
         OpalToolFunction.visitors := v;
         OpalToolFunction.frequency := Some f' |}
      = OpalToolFunction.Success d' /\
    OpalToolFunction.sampleSizePerVariant d' = OpalToolFunction.sampleSizePerVariant d /\
    OpalToolFunction.totalSampleSize d' = OpalToolFunction.totalSampleSize d /\
    OpalToolFunction.visitorsCountDays d' = OpalToolFunction.visitorsCountDays d /\
    OpalToolFunction.daysToRun d' = OpalToolFunction.daysToRun d /\
    OpalToolFunction.weeksToRun d' = OpalToolFunction.weeksToRun d /\
    OpalToolFunction.monthsToRun d' = OpalToolFunction.monthsToRun d.
Proof.
  intros Hf Hf' Hlow.
  unfold OpalToolFunction.calculateSampleSize.
  cbn [OpalToolFunction.baselineRate OpalToolFunction.mde
       OpalToolFunction.significance OpalToolFunction.variants
       OpalToolFunction.visitors OpalToolFunction.frequency].
  rewrite !str_or_nonempty by assumption.
  destruct (OpalToolFunction.calculateSampleSizeInternal _); [|discriminate].
  intros H. injection H as H. subst d.
  eexists. split; [reflexivity|].
  cbn [OpalToolFunction.sampleSizePerVariant OpalToolFunction.totalSampleSize
       OpalToolFunction.visitorsCountDays OpalToolFunction.daysToRun
       OpalToolFunction.weeksToRun OpalToolFunction.monthsToRun].
  rewrite Hlow. repeat split.
Qed.

Lemma calculateSampleSize_frequency_case_witness :
  exists d d' : OpalToolFunction.ResultData,
    OpalToolFunction.daysToRun d' = OpalToolFunction.daysToRun d.
Proof.
  destruct (calculateSampleSize_half_one_95_succeeds
              None None (Some "WEEKLY"%string)) as (d & E).
  destruct (calculateSampleSize_frequency_case "1.0.0"
              (Some (Fin (1 / 2))) (Some (Fin 1)) (Some (Fin 95)) None None
              "WEEKLY" "weekly" d) as (d' & _ & _ & _ & _ & Hd & _).
  - discriminate.
  - discriminate.
  - reflexivity.
  - exact E.
  - exists d, d'. exact Hd.
Defined.

(** * Properties of [validateParameter] *)

(** X17: for the significance, a finite value between 80 and 99, bounds
    included, is returned as it is, and every other value gives the
    default 0.95: a finite value below 80 or above 99, NaN and both
    infinities.  [formatNumber] is never called. *)
Theorem validateParameter_significance
    (formatNumber : number -> number) (value : number) :
  match value with
  | Fin x =>
      if Rltb x 80 || Rltb 99 x
      then validateParameter formatNumber value significance
           = DEFAULT_VALUES.significance
      else validateParameter formatNumber value significance = Fin x
  | NaN | PInf | NInf =>
      validateParameter formatNumber value significance
      = DEFAULT_VALUES.significance
  end.
Proof.
  destruct value as [| | |x]; try reflexivity.
  unfold validateParameter. cbn [isNaN negb defaultValue]. cbv iota.
  unfold gt. cbn [lt].
  destruct (Rltb x 80 || Rltb 99 x); reflexivity.
Qed.

(** X18: for the conversion and the effect, a value that is not strictly
    between 0 and 1 never reaches [formatNumber]: a value of at least 1,
    plus infinity included, is returned unchanged, and zero, a negative
    value, minus infinity or NaN gives the default; either way the result
    is positive. *)
Theorem validateParameter_rate_outside_unit
    (formatNumber : number -> number) (value : number) (p : parameter) :
  p <> significance ->
  gt value (Fin 0) && lt value (Fin 1) = false ->
  gt (validateParameter formatNumber value p) (Fin 0) = true /\
  ((validateParameter formatNumber value p = value /\ ge value (Fin 1) = true) \/
   (validateParameter formatNumber value p = defaultValue p /\
    ge value (Fin 1) = false)).
Proof.
  intros Hp Hout.
  assert (Hd : gt (defaultValue p) (Fin 0) = true).
  { destruct p; cbn; apply Rltb_true; lra. }
  assert (E : validateParameter formatNumber value p =
              if negb (isNaN value) then
                if le value (Fin 0) then defaultValue p
                else if gt value (Fin 0) && lt value (Fin 1)
                     then formatNumber value else value
              else defaultValue p).
  { destruct p; try reflexivity. contradiction. }
  rewrite E, Hout. clear E.
  destruct value as [| | |x]; cbn [isNaN negb le lt ge gt] in Hout |- *.
  - split; [exact Hd|]. right. split; reflexivity.
  - split; [reflexivity|]. left. split; reflexivity.
  - split; [exact Hd|]. right. split; reflexivity.
  - unfold gt, lt, Rltb in Hout |- *.
    destruct (Rlt_dec 0 x) as [H0|H0]; cbn [negb].
    + destruct (Rlt_dec x 1) as [H1|H1]; [discriminate Hout|].
      cbn [negb]. destruct (Rlt_dec 0 x); [|contradiction].
      split; [reflexivity|]. left. split; reflexivity.
    + split; [exact Hd|]. right. split; [reflexivity|].
      destruct (Rlt_dec x 1); [reflexivity | lra].
Qed.

Lemma validateParameter_rate_outside_unit_witness :
  gt (validateParameter (fun n => n) (Fin 5) conversion) (Fin 0) = true /\
  ((validateParameter (fun n => n) (Fin 5) conversion = Fin 5 /\
    ge (Fin 5) (Fin 1) = true) \/
   (validateParameter (fun n => n) (Fin 5) conversion = defaultValue conversion /\
    ge (Fin 5) (Fin 1) = false)).
Proof.
  apply (validateParameter_rate_outside_unit (fun n => n) (Fin 5) conversion).
  - discriminate.
  - cbn [gt lt]. rewrite (Rltb_false 5 1) by lra. apply andb_false_r.
Defined.

(** * A NaN sample size in the handler *)

Lemma sampleSizeOf_half_one_10 (v n : option number) (f : option string) :
  OpalToolFunction.sampleSizeOf
    {| OpalToolFunction.baselineRate := Some (Fin (1 / 2));
       OpalToolFunction.mde := Some (Fin 1);
       OpalToolFunction.significance := Some (Fin 10);
       OpalToolFunction.variants := v;
       OpalToolFunction.visitors := n;
       OpalToolFunction.frequency := f |} = Some NaN.
Proof.
  pose proof ln2_bounds as Hl.
  unfold OpalToolFunction.sampleSizeOf.
  rewrite calculateSampleSizeInternal_eq.
  cbn [OpalToolFunction.conversion OpalToolFunction.effect
       OpalToolFunction.pm_significance OpalToolFunction.mde
       OpalToolFunction.baselineRate OpalToolFunction.significance].
  rewrite !num_or_Fin by lra.
  rewrite div_Fin by lra.
  rewrite (sampleSizeEstimate_valid _ _ _ _ (sampleEstimate_half_one _)) by lra.
  rewrite roundToSigFigs_small by lra. reflexivity.
Qed.

(** X19: the handler tests the sample size against null only: when the
    calculation yields NaN it still reports success, and the sample sizes
    and the durations it reports are all NaN. *)
Theorem calculateSampleSize_NaN_sample_size
    (appVersion : string)
    (p : OpalToolFunction.SampleSizeCalculatorParameters) :
  OpalToolFunction.sampleSizeOf p = Some NaN ->
  exists d,
    OpalToolFunction.calculateSampleSize appVersion p = OpalToolFunction.Success d /\
    OpalToolFunction.sampleSizePerVariant d = NaN /\
    OpalToolFunction.totalSampleSize d = NaN /\
    OpalToolFunction.daysToRun d = NaN /\
    OpalToolFunction.weeksToRun d = NaN /\
    OpalToolFunction.monthsToRun d = NaN.
Proof.
  intros Hn. unfold OpalToolFunction.sampleSizeOf in Hn.
  unfold OpalToolFunction.calculateSampleSize. rewrite Hn.
  eexists. split; [reflexivity|].
  cbn [OpalToolFunction.sampleSizePerVariant OpalToolFunction.totalSampleSize
       OpalToolFunction.daysToRun OpalToolFunction.weeksToRun
       OpalToolFunction.monthsToRun].
  repeat split.
Qed.

Lemma calculateSampleSize_NaN_sample_size_witness :
  exists d,
    OpalToolFunction.calculateSampleSize "1.0.0"
      {| OpalToolFunction.baselineRate := Some (Fin (1 / 2));
         OpalToolFunction.mde := Some (Fin 1);
         OpalToolFunction.significance := Some (Fin 10);
         OpalToolFunction.variants := None;
         OpalToolFunction.visitors := None;
         OpalToolFunction.frequency := None |} = OpalToolFunction.Success d /\
    OpalToolFunction.sampleSizePerVariant d = NaN /\
    OpalToolFunction.totalSampleSize d = NaN /\
    OpalToolFunction.daysToRun d = NaN /\
    OpalToolFunction.weeksToRun d = NaN /\
    OpalToolFunction.monthsToRun d = NaN.
Proof.
  apply (calculateSampleSize_NaN_sample_size "1.0.0").
  apply sampleSizeOf_half_one_10.
Defined.
